(** * AgriNova Labs contact form: a shallow embedding of the serverless
    function and its helpers

  The development follows the four source files:
  - [Validator]  : netlify/functions/utils/validator.js
  - [Auth]       : netlify/functions/zoho/auth.js
  - [Mailer]     : netlify/functions/zoho/mailer.js
  - [Contact]    : netlify/functions/contact.js

  JavaScript strings are sequences of UTF-16 code units, timestamps are the
  integer milliseconds of [Date.now()], module-level variables are threaded
  as explicit state, and every interaction with the outside world (clock
  readings, HTTP replies) is an explicit input while every request that is
  issued is recorded in a trace. *)

From Stdlib Require Import ZArith NArith Ascii String Lia Bool.
From stdpp Require Import gmap list.

Local Open Scope list_scope.

(** ** JavaScript strings *)

Module JsString.

(** A string is the list of its UTF-16 code units; [length] is [.length]. *)
Definition jsstring : Type := list N.

(** [s.length] *)
Definition jslength (s : jsstring) : Z := Z.of_nat (length s).

(** An ASCII literal of the source. *)
Definition js (s : string) : jsstring :=
  map N_of_ascii (list_ascii_of_string s).

(** WhiteSpace and LineTerminator code points of ECMAScript: the set
    removed by [String.prototype.trim] and matched by [\s]. *)
Definition is_white_space (c : N) : bool :=
  ((9 <=? c) && (c <=? 13) || (c =? 32) || (c =? 160) || (c =? 5760)
   || (8192 <=? c) && (c <=? 8202) || (c =? 8232) || (c =? 8233)
   || (c =? 8239) || (c =? 8287) || (c =? 12288) || (c =? 65279))%N.

Fixpoint trimStart (s : jsstring) : jsstring :=
  match s with
  | [] => []
  | c :: s' => if is_white_space c then trimStart s' else s
  end.

Definition trimEnd (s : jsstring) : jsstring := rev (trimStart (rev s)).

(** [s.trim()] *)
Definition trim (s : jsstring) : jsstring := trimEnd (trimStart s).

(** [s.split(sep)[0]] for a one-character separator: the text before
    the first occurrence of [sep], the whole string when there is none. *)
Fixpoint split_head (sep : N) (s : jsstring) : jsstring :=
  match s with
  | [] => []
  | c :: s' => if (c =? sep)%N then [] else c :: split_head sep s'
  end.

(** [a === b] on strings *)
Fixpoint eqb (a b : jsstring) : bool :=
  match a, b with
  | [], [] => true
  | c :: a', d :: b' => (c =? d)%N && eqb a' b'
  | _, _ => false
  end.

(** [s.startsWith(p)] *)
Fixpoint starts_with (p s : jsstring) : bool :=
  match p, s with
  | [], _ => true
  | c :: p', d :: s' => (c =? d)%N && starts_with p' s'
  | _ :: _, [] => false
  end.

(** Truthiness of a value that is a string or missing. *)
Definition truthy (v : option jsstring) : bool :=
  match v with
  | Some (_ :: _) => true
  | _ => false
  end.

(** [String(v)] *)
Definition String_ (v : option jsstring) : jsstring :=
  match v with
  | Some s => s
  | None => js "undefined"
  end.

(** [v || d] on strings *)
Definition or_else (v : option jsstring) (d : jsstring) : jsstring :=
  match v with
  | Some (c :: s) => c :: s
  | _ => d
  end.

Lemma trimStart_no_space s :
  match trimStart s with
  | [] => True
  | c :: _ => is_white_space c = false
  end.
Proof.
  induction s as [|c s IH]; simpl; [exact I|].
  destruct (is_white_space c) eqn:E; [exact IH|exact E].
Qed.

Lemma eqb_eq a b : eqb a b = true <-> a = b.
Proof.
  revert b. induction a as [|c a IH]; intros [|d b]; simpl;
    try (split; [discriminate|intros [=]]); [now split|].
  rewrite andb_true_iff, N.eqb_eq, IH. split.
  - now intros [-> ->].
  - intros [= -> ->]. now split.
Qed.

Lemma eqb_refl a : eqb a a = true.
Proof. now apply eqb_eq. Qed.

Lemma starts_with_app p s : starts_with p (p ++ s) = true.
Proof. induction p as [|c p IH]; simpl; [reflexivity|]. now rewrite N.eqb_refl. Qed.

End JsString.

Import JsString.

(** ** Regular expressions

  The fragment of the regular-expression syntax used by the source:
  character classes, concatenation, alternation and iteration.  [matches]
  decides whether the whole input is in the language, which is what
  [/^...$/.test(s)] computes for a pattern without flags. *)

Module Regex.

Inductive regex : Type :=
| Void
| Eps
| Class (p : N -> bool)
| Cat (r s : regex)
| Alt (r s : regex)
| Star (r : regex).

(** [r+] and [r{2,}] *)
Definition Plus (r : regex) : regex := Cat r (Star r).
Definition AtLeast2 (r : regex) : regex := Cat r (Cat r (Star r)).
Definition Chr (c : N) : regex := Class (N.eqb c).

Fixpoint nullable (r : regex) : bool :=
  match r with
  | Void => false
  | Eps => true
  | Class _ => false
  | Cat r s => nullable r && nullable s
  | Alt r s => nullable r || nullable s
  | Star _ => true
  end.

Fixpoint deriv (c : N) (r : regex) : regex :=
  match r with
  | Void => Void
  | Eps => Void
  | Class p => if p c then Eps else Void
  | Cat r s =>
      if nullable r then Alt (Cat (deriv c r) s) (deriv c s)
      else Cat (deriv c r) s
  | Alt r s => Alt (deriv c r) (deriv c s)
  | Star r => Cat (deriv c r) (Star r)
  end.

Fixpoint matches (r : regex) (s : jsstring) : bool :=
  match s with
  | [] => nullable r
  | c :: s' => matches (deriv c r) s'
  end.

(** The language of a regular expression. *)
Inductive lang : regex -> jsstring -> Prop :=
| L_eps : lang Eps []
| L_class p c : p c = true -> lang (Class p) [c]
| L_cat r s u v : lang r u -> lang s v -> lang (Cat r s) (u ++ v)
| L_alt_l r s u : lang r u -> lang (Alt r s) u
| L_alt_r r s u : lang s u -> lang (Alt r s) u
| L_star_nil r : lang (Star r) []
| L_star_app r u v : lang r u -> lang (Star r) v -> lang (Star r) (u ++ v).

Lemma nullable_lang r : nullable r = true <-> lang r [].
Proof.
  induction r as [| |p|r IHr s IHs|r IHr s IHs|r IHr]; simpl.
  - split; [discriminate|]. intros H; inversion H.
  - split; [constructor|reflexivity].
  - split; [discriminate|]. intros H; inversion H.
  - rewrite andb_true_iff, IHr, IHs. split.
    + intros [Hr Hs]. change (@nil N) with (@nil N ++ []). now constructor.
    + intros H. inversion H as [| |r' s' u v Hu Hv [Er Es] Heq| | | |]; subst.
      destruct u; [|discriminate]. destruct v; [|discriminate]. now split.
  - rewrite orb_true_iff, IHr, IHs. split.
    + intros [H|H]; [now apply L_alt_l|now apply L_alt_r].
    + intros H; inversion H; subst; [now left|now right].
  - split; [constructor|reflexivity].
Qed.

(** A non-empty word of an iteration starts with a non-empty word of
    its body. *)
Lemma star_cons_inv r w :
  lang (Star r) w ->
  forall c s, w = c :: s ->
  exists u v, s = u ++ v /\ lang r (c :: u) /\ lang (Star r) v.
Proof.
  intros H. remember (Star r) as q eqn:Hq.
  induction H as [| | | | | r'|r' u v Hu _ Hv IHv]; try discriminate.
  injection Hq as ->. intros c s Hw.
  destruct u as [|c' u'].
  - simpl in Hw. now apply IHv.
  - simpl in Hw. injection Hw as -> <-. now exists u', v.
Qed.

Lemma cat_inv r q w :
  lang (Cat r q) w -> exists u v, w = u ++ v /\ lang r u /\ lang q v.
Proof. intros H. inversion H; subst. eauto. Qed.

Lemma deriv_lang c r : forall s, lang (deriv c r) s <-> lang r (c :: s).
Proof.
  induction r as [| |p|r IHr q IHq|r IHr q IHq|r IHr]; intros s; simpl.
  - split; intros H; inversion H.
  - split; intros H; inversion H.
  - destruct (p c) eqn:E; split; intros H.
    + inversion H; subst. now constructor.
    + inversion H; subst. constructor.
    + inversion H.
    + inversion H; subst. congruence.
  - assert (Hcat : lang (Cat (deriv c r) q) s <->
                   exists u v, s = u ++ v /\ lang r (c :: u) /\ lang q v).
    { split.
      - intros H. apply cat_inv in H as (u & v & -> & Hu & Hv).
        exists u, v. split; [reflexivity|]. split; [now apply IHr|exact Hv].
      - intros (u & v & -> & Hu & Hv). constructor; [now apply IHr|exact Hv]. }
    assert (Hsplit : lang (Cat r q) (c :: s) <->
              (exists u v, s = u ++ v /\ lang r (c :: u) /\ lang q v)
              \/ (lang r [] /\ lang q (c :: s))).
    { split.
      - intros H. apply cat_inv in H as (u & v & Heq & Hu & Hv).
        destruct u as [|c' u'].
        + simpl in Heq. subst v. now right.
        + simpl in Heq. injection Heq as -> ->. left. now exists u', v.
      - intros [(u & v & -> & Hu & Hv)|[Hr Hq]].
        + change (c :: u ++ v) with ((c :: u) ++ v). now constructor.
        + change (c :: s) with ([] ++ c :: s). now constructor. }
    rewrite Hsplit. destruct (nullable r) eqn:E.
    + split.
      * intros H. inversion H; subst.
        -- left. now apply Hcat.
        -- right. split; [now apply nullable_lang|now apply IHq].
      * intros [H|[_ H]].
        -- apply L_alt_l. now apply Hcat.
        -- apply L_alt_r. now apply IHq.
    + rewrite Hcat. split; [now left|].
      intros [H|[H _]]; [exact H|].
      apply nullable_lang in H. congruence.
  - split; intros H; inversion H; subst.
    + apply L_alt_l. now apply IHr.
    + apply L_alt_r. now apply IHq.
    + apply L_alt_l. now apply IHr.
    + apply L_alt_r. now apply IHq.
  - split.
    + intros H. apply cat_inv in H as (u & v & -> & Hu & Hv).
      change (c :: u ++ v) with ((c :: u) ++ v).
      constructor; [now apply IHr|exact Hv].
    + intros H.
      destruct (star_cons_inv _ _ H c s eq_refl) as (u & v & -> & Hu & Hv).
      constructor; [now apply IHr|exact Hv].
Qed.

Theorem matches_lang r : forall s, matches r s = true <-> lang r s.
Proof.
  intros s. revert r. induction s as [|c s IH]; intros r; simpl.
  - apply nullable_lang.
  - rewrite IH. apply deriv_lang.
Qed.

(** Words of [Star (Class p)]. *)
Lemma lang_star_class p s : lang (Star (Class p)) s <-> Forall (fun c => p c = true) s.
Proof.
  split.
  - intros H. remember (Star (Class p)) as q eqn:Hq.
    induction H as [| | | | | r|r u v Hu _ Hv IHv]; try discriminate.
    + constructor.
    + injection Hq as ->. inversion Hu; subst. simpl.
      constructor; [assumption|]. now apply IHv.
  - induction 1 as [|c s Hc _ IH]; [constructor|].
    change (c :: s) with ([c] ++ s). constructor; [now constructor|exact IH].
Qed.

Lemma lang_cat_iff r q w :
  lang (Cat r q) w <-> exists u v, w = u ++ v /\ lang r u /\ lang q v.
Proof.
  split; [apply cat_inv|].
  intros (u & v & -> & Hu & Hv). now constructor.
Qed.

Lemma lang_class_iff p s :
  lang (Class p) s <-> exists c, s = [c] /\ p c = true.
Proof.
  split.
  - intros H. inversion H; subst. eauto.
  - intros (c & -> & Hc). now constructor.
Qed.

Lemma lang_chr c s : lang (Chr c) s <-> s = [c].
Proof.
  unfold Chr. rewrite lang_class_iff. split.
  - intros (c' & -> & Hc). apply N.eqb_eq in Hc. now subst.
  - intros ->. exists c. split; [reflexivity|apply N.eqb_refl].
Qed.

Lemma lang_plus_class p s :
  lang (Plus (Class p)) s <-> s <> [] /\ Forall (fun c => p c = true) s.
Proof.
  unfold Plus. rewrite lang_cat_iff. split.
  - intros (u & v & -> & Hu & Hv).
    apply lang_class_iff in Hu as (c & -> & Hc).
    apply lang_star_class in Hv. split; [discriminate|now constructor].
  - intros [Hne Hall]. destruct s as [|c s]; [congruence|].
    inversion Hall; subst. exists [c], s.
    split; [reflexivity|]. split; [now constructor|now apply lang_star_class].
Qed.

Lemma lang_atleast2_class p s :
  lang (AtLeast2 (Class p)) s <->
  (2 <= length s)%nat /\ Forall (fun c => p c = true) s.
Proof.
  unfold AtLeast2. rewrite lang_cat_iff. split.
  - intros (u & v & -> & Hu & Hv).
    apply lang_class_iff in Hu as (c & -> & Hc).
    apply (lang_plus_class p v) in Hv as [Hne Hall].
    destruct v; [congruence|]. split; [simpl; lia|now constructor].
  - intros [Hlen Hall]. destruct s as [|c s]; [simpl in Hlen; lia|].
    inversion Hall; subst. exists [c], s.
    split; [reflexivity|]. split; [now constructor|].
    apply (lang_plus_class p s). split; [|assumption].
    destruct s; [simpl in Hlen; lia|discriminate].
Qed.

End Regex.

(** ** netlify/functions/utils/validator.js *)

Module Validator.
Import Regex.

(** The class [[^\s@]]. *)
Definition not_space_at (c : N) : bool :=
  negb (is_white_space c || (c =? 64)%N).

(** [/^[^\s@]+@[^\s@]+\.[^\s@]{2,}$/] *)
Definition EMAIL_RE : regex :=
  Cat (Plus (Class not_space_at))
    (Cat (Chr 64)
       (Cat (Plus (Class not_space_at))
          (Cat (Chr 46) (AtLeast2 (Class not_space_at))))).

Definition EMAIL_RE_test (s : jsstring) : bool := matches EMAIL_RE s.

Definition ERR_FIRST_NAME : jsstring := js "First name must be at least 2 characters.".
Definition ERR_EMAIL : jsstring := js "A valid email address is required.".
Definition ERR_TOO_SHORT : jsstring := js "Message must be at least 10 characters.".
Definition ERR_TOO_LONG : jsstring := js "Message must not exceed 5,000 characters.".

(** The argument object [{ firstName, email, message }]; a field is a
    string or missing ([None], [undefined]). *)
Record fields : Type := Fields {
  firstName : option jsstring;
  email : option jsstring;
  message : option jsstring
}.

(** [errors.push(x)] *)
Definition push (errors : list jsstring) (x : jsstring) : list jsstring :=
  errors ++ [x].

Definition validate (f : fields) : list jsstring :=
  let errors := [] in
  let errors :=
    if negb (truthy (firstName f))
       || (jslength (trim (String_ (firstName f))) <? 2)%Z
    then push errors ERR_FIRST_NAME else errors in
  let errors :=
    if negb (truthy (email f))
       || negb (EMAIL_RE_test (trim (String_ (email f))))
    then push errors ERR_EMAIL else errors in
  let errors :=
    if negb (truthy (message f))
       || (jslength (trim (String_ (message f))) <? 10)%Z
    then push errors ERR_TOO_SHORT else errors in
  let errors :=
    if truthy (message f)
       && (5000 <? jslength (trim (String_ (message f))))%Z
    then push errors ERR_TOO_LONG else errors in
  errors.

(** *** The rules in the words of the specification *)

(** "local-part@domain.tld where local-part and domain contain no
    whitespace/@, and the final label is at least 2 characters" *)
Definition email_pattern (s : jsstring) : Prop :=
  exists l d t : jsstring,
    s = l ++ [64%N] ++ d ++ [46%N] ++ t
    /\ l <> [] /\ d <> []
    /\ Forall (fun c => not_space_at c = true) l
    /\ Forall (fun c => not_space_at c = true) d
    /\ Forall (fun c => not_space_at c = true) t
    /\ (2 <= length t)%nat.

(** "fails if absent or, after trimming whitespace, shorter than 2
    characters" *)
Definition firstName_fails (v : option jsstring) : bool :=
  match v with
  | None => true
  | Some s => (jslength (trim s) <? 2)%Z
  end.

(** "fails if absent or does not match the pattern", the pattern being
    tried on the trimmed text as the source does *)
Definition email_fails (v : option jsstring) : bool :=
  match v with
  | None => true
  | Some s => negb (EMAIL_RE_test (trim s))
  end.

(** "fails if absent or trimmed length < 10" *)
Definition message_too_short (v : option jsstring) : bool :=
  match v with
  | None => true
  | Some s => (jslength (trim s) <? 10)%Z
  end.

(** "fails if present and trimmed length > 5000" *)
Definition message_too_long (v : option jsstring) : bool :=
  match v with
  | None => false
  | Some s => (5000 <? jslength (trim s))%Z
  end.

(** *** The regular expression against the pattern *)

Lemma EMAIL_RE_spec s : EMAIL_RE_test s = true <-> email_pattern s.
Proof.
  unfold EMAIL_RE_test, EMAIL_RE, email_pattern. rewrite matches_lang.
  split.
  - intros H.
    apply cat_inv in H as (l & r1 & -> & Hl & H).
    apply cat_inv in H as (a & r2 & -> & Ha & H).
    apply cat_inv in H as (d & r3 & -> & Hd & H).
    apply cat_inv in H as (p & t & -> & Hp & Ht).
    apply lang_chr in Ha as ->. apply lang_chr in Hp as ->.
    apply lang_plus_class in Hl as [Hl1 Hl2].
    apply lang_plus_class in Hd as [Hd1 Hd2].
    apply lang_atleast2_class in Ht as [Ht1 Ht2].
    exists l, d, t. repeat split; assumption.
  - intros (l & d & t & -> & Hl1 & Hd1 & Hl2 & Hd2 & Ht2 & Ht1).
    constructor; [now apply lang_plus_class|].
    constructor; [now apply lang_chr|].
    constructor; [now apply lang_plus_class|].
    constructor; [now apply lang_chr|].
    now apply lang_atleast2_class.
Qed.


(** The tld part of the pattern is whatever follows one of the dots, so
    it may contain dots itself. *)
Example EMAIL_RE_dotted_tld :
  EMAIL_RE_test (js "a@b.c.d") = true /\ EMAIL_RE_test (js "a@b.c") = false.
Proof. split; reflexivity. Qed.

(** *** The four rules are evaluated one after the other *)

Definition rule_errors (f : fields) : list jsstring :=
  (if firstName_fails (firstName f) then [ERR_FIRST_NAME] else [])
  ++ (if email_fails (email f) then [ERR_EMAIL] else [])
  ++ (if message_too_short (message f) then [ERR_TOO_SHORT] else [])
  ++ (if message_too_long (message f) then [ERR_TOO_LONG] else []).

Lemma firstName_cond v :
  negb (truthy v) || (jslength (trim (String_ v)) <? 2)%Z = firstName_fails v.
Proof. destruct v as [[|c s]|]; reflexivity. Qed.

Lemma email_cond v :
  negb (truthy v) || negb (EMAIL_RE_test (trim (String_ v))) = email_fails v.
Proof. destruct v as [[|c s]|]; reflexivity. Qed.

Lemma message_short_cond v :
  negb (truthy v) || (jslength (trim (String_ v)) <? 10)%Z = message_too_short v.
Proof. destruct v as [[|c s]|]; reflexivity. Qed.

Lemma message_long_cond v :
  truthy v && (5000 <? jslength (trim (String_ v)))%Z = message_too_long v.
Proof. destruct v as [[|c s]|]; reflexivity. Qed.

Lemma validate_rule_errors f : validate f = rule_errors f.
Proof.
  unfold validate, rule_errors, push.
  rewrite firstName_cond, email_cond, message_short_cond, message_long_cond.
  destruct (firstName_fails _), (email_fails _), (message_too_short _),
    (message_too_long _); reflexivity.
Qed.

(** The four messages are pairwise different, so each one occurs in the
    result exactly when its own rule fails. *)
Ltac in_rule_errors :=
  let H := fresh "H" in
  unfold rule_errors;
  repeat match goal with |- context [if ?b then _ else _] => destruct b end;
  simpl; split; intros H; try reflexivity; try discriminate;
  repeat (destruct H as [H|H]); try contradiction;
  try (vm_compute in H; discriminate);
  auto 6.

Lemma In_ERR_FIRST_NAME f :
  In ERR_FIRST_NAME (validate f) <-> firstName_fails (firstName f) = true.
Proof. rewrite validate_rule_errors. in_rule_errors. Qed.

Lemma In_ERR_EMAIL f :
  In ERR_EMAIL (validate f) <-> email_fails (email f) = true.
Proof. rewrite validate_rule_errors. in_rule_errors. Qed.

Lemma In_ERR_TOO_SHORT f :
  In ERR_TOO_SHORT (validate f) <-> message_too_short (message f) = true.
Proof. rewrite validate_rule_errors. in_rule_errors. Qed.

Lemma In_ERR_TOO_LONG f :
  In ERR_TOO_LONG (validate f) <-> message_too_long (message f) = true.
Proof. rewrite validate_rule_errors. in_rule_errors. Qed.

Lemma validate_nil f :
  validate f = [] <->
  firstName_fails (firstName f) = false /\ email_fails (email f) = false
  /\ message_too_short (message f) = false
  /\ message_too_long (message f) = false.
Proof.
  rewrite validate_rule_errors. unfold rule_errors.
  destruct (firstName_fails _), (email_fails _), (message_too_short _),
    (message_too_long _); simpl; split;
    try discriminate; try tauto; intros (? & ? & ? & ?); discriminate.
Qed.

(** *** Claims about the validator *)




(** C5: [validate] evaluates its four rules independently and returns
    exactly the messages of the rules that fail, in the order first name,
    e-mail, message too short, message too long; the result is empty
    exactly when no rule fails.  A message of 10 trimmed characters passes
    the lower bound and one of 9 fails it; 5000 trimmed characters pass the
    upper bound and 5001 fail it; a first name that trims to fewer than 2
    characters gets the first-name message. *)
Theorem validate_all_rules_in_order (f : fields) :
  validate f =
    (if firstName_fails (firstName f) then [ERR_FIRST_NAME] else [])
    ++ (if email_fails (email f) then [ERR_EMAIL] else [])
    ++ (if message_too_short (message f) then [ERR_TOO_SHORT] else [])
    ++ (if message_too_long (message f) then [ERR_TOO_LONG] else [])
  /\ (validate f = [] <->
      firstName_fails (firstName f) = false /\ email_fails (email f) = false
      /\ message_too_short (message f) = false
      /\ message_too_long (message f) = false)
  /\ (forall m, message f = Some m -> jslength (trim m) = 10%Z ->
        ~ In ERR_TOO_SHORT (validate f))
  /\ (forall m, message f = Some m -> jslength (trim m) = 9%Z ->
        In ERR_TOO_SHORT (validate f))
  /\ (forall m, message f = Some m -> jslength (trim m) = 5000%Z ->
        ~ In ERR_TOO_LONG (validate f))
  /\ (forall m, message f = Some m -> jslength (trim m) = 5001%Z ->
        In ERR_TOO_LONG (validate f))
  /\ (forall n, firstName f = Some n -> (jslength (trim n) < 2)%Z ->
        In ERR_FIRST_NAME (validate f)).
Proof.
  split; [apply validate_rule_errors|].
  split; [apply validate_nil|].
  repeat split; intros m Hm Hlen.
  - rewrite In_ERR_TOO_SHORT, Hm. simpl. rewrite Hlen. discriminate.
  - rewrite In_ERR_TOO_SHORT, Hm. simpl. now rewrite Hlen.
  - rewrite In_ERR_TOO_LONG, Hm. simpl. rewrite Hlen, Z.ltb_irrefl. discriminate.
  - rewrite In_ERR_TOO_LONG, Hm. simpl. now rewrite Hlen.
  - rewrite In_ERR_FIRST_NAME, Hm. simpl. now apply Z.ltb_lt.
Qed.

Lemma validate_all_rules_in_order_witness :
  let f10 := Fields None None (Some (js " 0123456789 ")) in
  let f9 := Fields (Some (js " a ")) None (Some (js "012345678")) in
  let f5000 := Fields None None (Some (repeat 97%N (Z.to_nat 5000))) in
  let f5001 := Fields None None (Some (repeat 97%N (Z.to_nat 5001))) in
  ~ In ERR_TOO_SHORT (validate f10)
  /\ In ERR_TOO_SHORT (validate f9)
  /\ ~ In ERR_TOO_LONG (validate f5000)
  /\ In ERR_TOO_LONG (validate f5001)
  /\ In ERR_FIRST_NAME (validate f9).
Proof.
  intros f10 f9 f5000 f5001.
  split; [|split; [|split; [|split]]].
  - apply (proj1 (proj2 (proj2 (validate_all_rules_in_order f10)))
             (js " 0123456789 ")); reflexivity.
  - apply (proj1 (proj2 (proj2 (proj2 (validate_all_rules_in_order f9))))
             (js "012345678")); reflexivity.
  - apply (proj1 (proj2 (proj2 (proj2 (proj2 (validate_all_rules_in_order f5000)))))
             (repeat 97%N (Z.to_nat 5000))); [reflexivity|now vm_compute].
  - apply (proj1 (proj2 (proj2 (proj2 (proj2 (proj2 (validate_all_rules_in_order f5001))))))
             (repeat 97%N (Z.to_nat 5001))); [reflexivity|now vm_compute].
  - apply (proj2 (proj2 (proj2 (proj2 (proj2 (proj2 (validate_all_rules_in_order f9))))))
             (js " a ")); [reflexivity|now vm_compute].
Defined.

End Validator.

(** ** Values exchanged with the platform and the mail provider *)

Module Js.

Unset Elimination Schemes.

(** Parsed JSON.  Numbers are the integers; fractions play no role in the
    code below. *)
Inductive json : Type :=
| JNull
| JBool (b : bool)
| JNum (z : Z)
| JStr (s : jsstring)
| JArr (l : list json)
| JObj (kv : list (jsstring * json)).

Set Elimination Schemes.

(** A JavaScript value is [undefined] ([None]) or a JSON value. *)
Definition value : Type := option json.

(** [ToBoolean] *)
Definition truthy_value (v : value) : bool :=
  match v with
  | None => false
  | Some JNull => false
  | Some (JBool b) => b
  | Some (JNum z) => negb (z =? 0)%Z
  | Some (JStr s) => match s with [] => false | _ => true end
  | Some (JArr _) => true
  | Some (JObj _) => true
  end.

Fixpoint assoc (k : jsstring) (kv : list (jsstring * json)) : value :=
  match kv with
  | [] => None
  | (k', v) :: kv' => if eqb k' k then Some v else assoc k kv'
  end.

(** [v?.k] for the property names read by the source ([data], [status],
    [messageId], [errorCode], [code]): only objects carry them. *)
Definition opt_get (v : value) (k : jsstring) : value :=
  match v with
  | Some (JObj kv) => assoc k kv
  | _ => None
  end.

(** [a || b] *)
Definition or_value (a b : value) : value :=
  if truthy_value a then a else b.

(** [v === 'literal'] *)
Definition is_string (v : value) (s : jsstring) : bool :=
  match v with
  | Some (JStr t) => eqb t s
  | _ => false
  end.

(** What [axios.post] throws: [err.message] and, when the server
    answered, the status and parsed body of [err.response]. *)
Record axios_error : Type := AxiosError {
  ax_message : jsstring;
  ax_response : option (Z * json)
}.

(** [err.response?.data] *)
Definition response_data (err : axios_error) : value :=
  match ax_response err with
  | Some (_, d) => Some d
  | None => None
  end.

(** Thrown values: [new Error(message)] or an error of the HTTP client. *)
Inductive js_error : Type :=
| Error (message : jsstring)
| Axios (err : axios_error).

Inductive result (A : Type) : Type :=
| Ok (a : A)
| Throw (e : js_error).
Arguments Ok {A} a.
Arguments Throw {A} e.

(** [process.env]; [None] is an unset variable. *)
Record env : Type := Env {
  ALLOWED_ORIGIN : option jsstring;
  ZOHO_ACCOUNTS_URL : option jsstring;
  ZOHO_CLIENT_ID : option jsstring;
  ZOHO_CLIENT_SECRET : option jsstring;
  ZOHO_REFRESH_TOKEN : option jsstring;
  ZOHO_ACCOUNT_ID : option jsstring;
  ZOHO_FROM_EMAIL : option jsstring
}.

(** The form-encoded body of the token request. *)
Record token_params : Type := TokenParams {
  grant_type : jsstring;
  client_id : option jsstring;
  client_secret : option jsstring;
  refresh_token : option jsstring
}.

(** The JSON body of the send request. *)
Record mail_payload : Type := MailPayload {
  p_fromAddress : jsstring;
  p_toAddress : jsstring;
  p_subject : jsstring;
  p_content : jsstring;
  p_mailFormat : jsstring;
  p_altText : option jsstring
}.

(** The HTTP requests the program issues, in the order of the trace. *)
Inductive request : Type :=
| TokenPost (url : jsstring) (params : token_params)
| MailPost (endpoint : jsstring) (payload : mail_payload)
    (authorization : jsstring) (timeout : Z).

(** What a function leaves behind: its completion, the module state and
    the requests it issued. *)
Record outcome (S A : Type) : Type := Outcome {
  returned : result A;
  final : S;
  requests : list request
}.
Arguments Outcome {S A} _ _ _.
Arguments returned {S A} _.
Arguments final {S A} _.
Arguments requests {S A} _.

End Js.

Import Js.

(** ** The texts of the thrown errors *)

Module Errors.

(** auth.js *)
Definition TOKEN_ERROR : jsstring :=
  js "Could not obtain Zoho access token. "
  ++ js "Check ZOHO_CLIENT_ID, ZOHO_CLIENT_SECRET, and ZOHO_REFRESH_TOKEN in Netlify environment variables.".

(** mailer.js *)
Definition ACCOUNT_UNSET_ERROR : jsstring :=
  js "ZOHO_ACCOUNT_ID is not set in Netlify environment variables.".
Definition UNEXPECTED_RESPONSE : jsstring := js "Unexpected Zoho response: ".
Definition TOKEN_INVALID_ERROR : jsstring :=
  js "Zoho token is invalid. Check ZOHO_REFRESH_TOKEN in Netlify env vars.".
Definition ACCOUNT_WRONG_ERROR : jsstring :=
  js "ZOHO_ACCOUNT_ID is wrong. Re-check it in Zoho Mail API settings.".
Definition QUOTA_ERROR : jsstring := js "Zoho Mail daily sending quota exceeded.".
Definition API_ERROR : jsstring := js "Zoho Mail API error: ".

(** The source throws plain [Error]s that differ by their text only.  The
    specification names them; [kind_of] reads its names off the thrown
    value: an error of the HTTP client is a transport error, an [Error]
    is named after its text. *)
Inductive error_kind : Type :=
| AuthError
| ConfigError
| QuotaError
| MailProviderError
| UnexpectedResponseError
| TransportError
| OtherError.

Definition kind_of (err : js_error) : error_kind :=
  match err with
  | Axios _ => TransportError
  | Error m =>
      if eqb m TOKEN_ERROR then AuthError
      else if eqb m TOKEN_INVALID_ERROR then AuthError
      else if eqb m ACCOUNT_UNSET_ERROR then ConfigError
      else if eqb m ACCOUNT_WRONG_ERROR then ConfigError
      else if eqb m QUOTA_ERROR then QuotaError
      else if starts_with API_ERROR m then MailProviderError
      else if starts_with UNEXPECTED_RESPONSE m then UnexpectedResponseError
      else OtherError
  end.



End Errors.

Import Errors.

(** ** netlify/functions/zoho/auth.js *)

Module Auth.

Local Open Scope Z_scope.

(** The module-level variables; [None] is [null]. *)
Record cache : Type := Cache {
  _cachedToken : option jsstring;
  _tokenExpiry : option Z
}.

Definition initial : cache := Cache None None.

(** The body of a 2xx reply of the token endpoint: the two fields the code
    reads, [None] when the field is missing (a body that is not an object
    has neither). *)
Record token_data : Type := TokenData {
  access_token : option jsstring;
  expires_in : option Z
}.

Inductive token_reply : Type :=
| TokenResolved (data : token_data)
| TokenRejected (err : axios_error).

(** Truthiness of a number or [null]. *)
Definition truthy_num (v : option Z) : bool :=
  match v with
  | Some z => negb (z =? 0)
  | None => false
  end.

(** [v || d] on numbers *)
Definition num_or (v : option Z) (d : Z) : Z :=
  match v with
  | Some z => if z =? 0 then d else z
  | None => d
  end.

(** [now < _tokenExpiry - 60_000] *)
Definition before_margin (now : Z) (expiry : option Z) : bool :=
  match expiry with
  | Some e => now <? e - 60000
  | None => now <? 0 - 60000
  end.

Definition token_request (e : env) : request :=
  let accountsUrl := or_else (ZOHO_ACCOUNTS_URL e) (js "https://accounts.zoho.com") in
  let params := TokenParams (js "refresh_token") (ZOHO_CLIENT_ID e)
                  (ZOHO_CLIENT_SECRET e) (ZOHO_REFRESH_TOKEN e) in
  TokenPost (accountsUrl ++ js "/oauth/v2/token") params.

(** The [try] block: [None] when it throws (the thrown value is only
    logged by the handler of the block). *)
Definition exchange (now : Z) (reply : token_reply) (st : cache)
  : option jsstring * cache :=
  match reply with
  | TokenRejected _ => (None, st)
  | TokenResolved data =>
      if negb (truthy (access_token data)) then (None, st)
      else
        let st' := Cache (access_token data)
                     (Some (now + num_or (expires_in data) 3600 * 1000)) in
        (Some (String_ (_cachedToken st')), st')
  end.

(** [getAccessToken()], with the clock reading [now] and the [reply] the
    token endpoint gives if it is asked. *)
Definition getAccessToken (e : env) (now : Z) (reply : token_reply) (st : cache)
  : outcome cache jsstring :=
  if truthy (_cachedToken st) && truthy_num (_tokenExpiry st)
     && before_margin now (_tokenExpiry st)
  then Outcome (Ok (String_ (_cachedToken st))) st []
  else
    match exchange now reply st with
    | (Some token, st') => Outcome (Ok token) st' [token_request e]
    | (None, st') => Outcome (Throw (Error TOKEN_ERROR)) st' [token_request e]
    end.

(** The states the module can be in: nothing cached, or a non-empty token
    with its expiry. *)
Definition cache_wf (st : cache) : Prop :=
  st = initial
  \/ exists tok exp, tok <> [] /\ st = Cache (Some tok) (Some exp).

(** *** Properties of the token provider *)

Lemma initial_wf : cache_wf initial.
Proof. now left. Qed.

Lemma getAccessToken_wf e now reply st :
  cache_wf st -> cache_wf (final (getAccessToken e now reply st)).
Proof.
  intros Hwf. unfold getAccessToken.
  destruct (_ && _ && _); [exact Hwf|].
  unfold exchange. destruct reply as [data|err]; [|exact Hwf].
  destruct (access_token data) as [[|c tok]|] eqn:E; simpl; try exact Hwf.
  right. exists (c :: tok), (now + num_or (expires_in data) 3600 * 1000).
  split; [discriminate|reflexivity].
Qed.

(** The guard of [getAccessToken] on a state the module can be in. *)
Lemma cache_guard now st :
  cache_wf st -> 0 <= now ->
  truthy (_cachedToken st) && truthy_num (_tokenExpiry st)
    && before_margin now (_tokenExpiry st) = true
  <-> exists tok exp, st = Cache (Some tok) (Some exp) /\ now < exp - 60000.
Proof.
  intros [->|(tok & exp & Htok & ->)] Hnow; simpl.
  - split; [discriminate|]. intros (tok & exp & [=] & _).
  - destruct tok as [|c tok]; [congruence|]. simpl. split.
    + intros H. apply andb_true_iff in H as [_ H]. apply Z.ltb_lt in H.
      now exists (c :: tok), exp.
    + intros (tok' & exp' & [= <- <-] & H).
      apply andb_true_iff. split; [|now apply Z.ltb_lt].
      apply negb_true_iff, Z.eqb_neq. lia.
Qed.

Lemma getAccessToken_requests e now reply st :
  requests (getAccessToken e now reply st) = []
  \/ requests (getAccessToken e now reply st) = [token_request e].
Proof.
  unfold getAccessToken. destruct (_ && _ && _); [now left|].
  right. now destruct (exchange now reply st) as [[tok|] st'].
Qed.

(** C4, as amended: [getAccessToken] returns the cached token without a
    network call exactly when a token is cached and the current time is
    more than 60 seconds before its recorded expiry (expiry 61 s ahead:
    reused; 59 s ahead: one new exchange).  On a successful exchange it
    caches the new token with expiry [now + expires_in * 1000], where
    [expires_in] defaults to 3600 seconds when it is absent or zero, and
    returns the token. *)
Theorem getAccessToken_cache_policy e now reply st :
  cache_wf st -> 0 <= now ->
  (requests (getAccessToken e now reply st) = [] <->
   exists tok exp, st = Cache (Some tok) (Some exp) /\ now < exp - 60000)
  /\ (forall tok exp,
        st = Cache (Some tok) (Some exp) -> now < exp - 60000 ->
        getAccessToken e now reply st = Outcome (Ok tok) st [])
  /\ (forall tok, st = Cache (Some tok) (Some (now + 61000)) ->
        getAccessToken e now reply st = Outcome (Ok tok) st [])
  /\ (forall tok, st = Cache (Some tok) (Some (now + 59000)) ->
        requests (getAccessToken e now reply st) = [token_request e])
  /\ (requests (getAccessToken e now reply st) <> [] ->
      forall tok secs,
        reply = TokenResolved (TokenData (Some tok) secs) -> tok <> [] ->
        getAccessToken e now reply st =
          Outcome (Ok tok)
            (Cache (Some tok)
               (Some (now + match secs with
                            | None => 3600
                            | Some 0 => 3600
                            | Some n => n
                            end * 1000)))
            [token_request e]).
Proof.
  intros Hwf Hnow.
  pose proof (cache_guard now st Hwf Hnow) as Hguard.
  assert (Hreuse : forall tok exp,
             st = Cache (Some tok) (Some exp) -> now < exp - 60000 ->
             getAccessToken e now reply st = Outcome (Ok tok) st []).
  { intros tok exp Hst Hlt. unfold getAccessToken.
    replace (_ && _ && _) with true
      by (symmetry; apply Hguard; now exists tok, exp).
    now rewrite Hst. }
  assert (Hiff : requests (getAccessToken e now reply st) = [] <->
                 exists tok exp, st = Cache (Some tok) (Some exp) /\ now < exp - 60000).
  { split.
    - intros H. apply Hguard. unfold getAccessToken in H.
      destruct (_ && _ && _); [reflexivity|].
      now destruct (exchange now reply st) as [[tok|] st'].
    - intros (tok & exp & Hst & Hlt). now rewrite (Hreuse tok exp). }
  split; [exact Hiff|]. split; [exact Hreuse|].
  split; [|split].
  - intros tok Hst. apply (Hreuse tok (now + 61000)); [exact Hst|lia].
  - intros tok Hst.
    destruct (getAccessToken_requests e now reply st) as [H|H]; [|exact H].
    apply Hiff in H as (tok' & exp & Hst' & Hlt).
    rewrite Hst in Hst'. injection Hst' as _ <-. lia.
  - intros Hcall tok secs -> Htok.
    unfold getAccessToken in *.
    destruct (_ && _ && _); [now elim Hcall|].
    destruct tok as [|c tok]; [congruence|]. simpl.
    destruct secs as [[|n|n]|]; reflexivity.
Qed.

Lemma getAccessToken_cache_policy_witness :
  let e := Env None None (Some (js "id")) (Some (js "secret")) (Some (js "refresh"))
             (Some (js "42")) None in
  let st := Cache (Some (js "old")) (Some 1059000) in
  let reply := TokenResolved (TokenData (Some (js "new")) (Some 1800)) in
  getAccessToken e 1000000 reply st =
    Outcome (Ok (js "new")) (Cache (Some (js "new")) (Some 2800000))
      [token_request e].
Proof.
  intros e st reply.
  assert (Hwf : cache_wf st).
  { right. exists (js "old"), 1059000. split; [discriminate|reflexivity]. }
  assert (Hnow : 0 <= 1000000) by lia.
  destruct (getAccessToken_cache_policy e 1000000 reply st Hwf Hnow)
    as (_ & _ & _ & H59 & Hnew).
  apply (Hnew ltac:(rewrite (H59 (js "old") eq_refl); discriminate)
           (js "new") (Some 1800) eq_refl).
  discriminate.
Defined.

(** C4, as stated, fails when the provider reports [expires_in: 0]: the
    field is present, yet the cached expiry is one hour ahead and not
    [now + 0 * 1000]. *)
Lemma getAccessToken_expires_in_zero_counterexample :
  let reply := TokenResolved (TokenData (Some (js "tok")) (Some 0)) in
  let out := getAccessToken (Env None None None None None None None)
               1000000 reply initial in
  returned out = Ok (js "tok")
  /\ _tokenExpiry (final out) = Some (1000000 + 3600 * 1000)
  /\ _tokenExpiry (final out) <> Some (1000000 + 0 * 1000).
Proof. simpl. repeat split. discriminate. Qed.

(** C8: whenever the exchange is attempted and the endpoint answers with a
    failure or with a body that lacks [access_token], [getAccessToken]
    throws the token error, whose text is the same fixed sentence whatever
    the client id, client secret and refresh token are, and the cached
    token and expiry stay as they were. *)
Theorem getAccessToken_failure_redacted e now reply st :
  requests (getAccessToken e now reply st) <> [] ->
  (exists err, reply = TokenRejected err)
  \/ (exists data, reply = TokenResolved data /\ truthy (access_token data) = false) ->
  returned (getAccessToken e now reply st) = Throw (Error TOKEN_ERROR)
  /\ kind_of (Error TOKEN_ERROR) = AuthError
  /\ final (getAccessToken e now reply st) = st
  /\ (forall id secret refresh,
        returned (getAccessToken
                    (Env (ALLOWED_ORIGIN e) (ZOHO_ACCOUNTS_URL e) id secret refresh
                       (ZOHO_ACCOUNT_ID e) (ZOHO_FROM_EMAIL e)) now reply st)
        = Throw (Error TOKEN_ERROR)).
Proof.
  intros Hcall Hfail. unfold getAccessToken in *.
  destruct (_ && _ && _); [now elim Hcall|].
  assert (Hex : exchange now reply st = (None, st)).
  { destruct Hfail as [[err ->]|(data & -> & Hd)]; [reflexivity|].
    unfold exchange. now rewrite Hd. }
  rewrite Hex. simpl. auto.
Qed.

Lemma getAccessToken_failure_redacted_witness :
  let e := Env None None (Some (js "id")) (Some (js "secret")) (Some (js "refresh"))
             (Some (js "42")) None in
  let st := Cache (Some (js "old")) (Some 1059000) in
  let reply := TokenResolved (TokenData None (Some 3600)) in
  returned (getAccessToken e 1000000 reply st) = Throw (Error TOKEN_ERROR)
  /\ final (getAccessToken e 1000000 reply st) = st.
Proof.
  intros e st reply.
  destruct (getAccessToken_failure_redacted e 1000000 reply st) as (H1 & _ & H2 & _).
  - discriminate.
  - right. exists (TokenData None (Some 3600)). split; reflexivity.
  - split; assumption.
Defined.

End Auth.

(** ** netlify/functions/zoho/mailer.js *)

Module Mailer.

Import Auth.
Local Open Scope Z_scope.

(** The argument object of [send]; [fromAddress] comes from an
    environment variable and may be [undefined], [textBody] is optional. *)
Record EmailMessage : Type := Email {
  fromName : jsstring;
  fromAddress : option jsstring;
  toAddress : jsstring;
  subject : jsstring;
  htmlBody : jsstring;
  textBody : option jsstring
}.

(** What the send endpoint answers: a 2xx reply with its status and parsed
    body, or the error thrown by the HTTP client. *)
Inductive mail_reply : Type :=
| MailResolved (status : Z) (data : json)
| MailRejected (err : axios_error).

(** [{ success: true, messageId }] *)
Record sent : Type := Sent {
  success : bool;
  messageId : value
}.

(** [data?.data?.messageId] *)
Definition message_id (data : json) : value :=
  opt_get (opt_get (Some data) (js "data")) (js "messageId").

(** [zohoError?.data?.errorCode || zohoError?.status?.code] *)
Definition error_code (zohoError : value) : value :=
  or_value (opt_get (opt_get zohoError (js "data")) (js "errorCode"))
           (opt_get (opt_get zohoError (js "status")) (js "code")).

Definition endpoint_of (accountId : option jsstring) : jsstring :=
  js "https://mail.zoho.com/api/accounts/" ++ String_ accountId ++ js "/messages".

Definition payload_of (m : EmailMessage) : mail_payload :=
  MailPayload (fromName m ++ js " <" ++ String_ (fromAddress m) ++ js ">")
    (toAddress m) (subject m) (htmlBody m) (js "html")
    (if truthy (textBody m) then textBody m else None).

Definition mail_request (e : env) (accessToken : jsstring) (m : EmailMessage)
  : request :=
  MailPost (endpoint_of (ZOHO_ACCOUNT_ID e)) (payload_of m)
    (js "Zoho-oauthtoken " ++ accessToken) 10000.

Section WithStringify.

(** [JSON.stringify] of the runtime. *)
Variable JSON_stringify : json -> jsstring.

(** [JSON.stringify(v)] for a value that may be [undefined]. *)
Definition stringify_value (v : value) : jsstring :=
  match v with
  | Some j => JSON_stringify j
  | None => js "undefined"
  end.

(** The [try] block after the request was answered. *)
Definition on_reply (reply : mail_reply) : result sent :=
  match reply with
  | MailResolved status data =>
      if (status =? 200) && truthy_value (message_id data)
      then Ok (Sent true (message_id data))
      else Throw (Error (UNEXPECTED_RESPONSE ++ JSON_stringify data))
  | MailRejected err => Throw (Axios err)
  end.

(** The [catch] block: the value it throws for a caught [err]. *)
Definition on_error (err : js_error) : js_error :=
  let zohoError :=
    match err with
    | Axios a => response_data a
    | Error _ => None
    end in
  if truthy_value zohoError then
    let code := error_code zohoError in
    if is_string code (js "INVALID_OAUTHTOKEN") then Error TOKEN_INVALID_ERROR
    else if is_string code (js "INVALID_ACCOUNT") then Error ACCOUNT_WRONG_ERROR
    else if is_string code (js "QUOTA_EXCEEDED") then Error QUOTA_ERROR
    else Error (API_ERROR ++ stringify_value zohoError)
  else err.

(** [send(opts)], with the clock reading and the replies the token and
    send endpoints give if they are asked. *)
Definition send (e : env) (now : Z) (treply : token_reply) (mreply : mail_reply)
    (m : EmailMessage) (st : cache) : outcome cache sent :=
  let tok := getAccessToken e now treply st in
  match returned tok with
  | Throw err => Outcome (Throw err) (final tok) (requests tok)
  | Ok accessToken =>
      let accountId := ZOHO_ACCOUNT_ID e in
      if negb (truthy accountId)
      then Outcome (Throw (Error ACCOUNT_UNSET_ERROR)) (final tok) (requests tok)
      else
        let completion :=
          match on_reply mreply with
          | Ok r => Ok r
          | Throw err => Throw (on_error err)
          end in
        Outcome completion (final tok)
          (requests tok ++ [mail_request e accessToken m])
  end.

(** *** Properties of the mail sender *)

Lemma send_token_failure e now treply mreply m st err :
  returned (getAccessToken e now treply st) = Throw err ->
  send e now treply mreply m st =
    Outcome (Throw err) (final (getAccessToken e now treply st))
      (requests (getAccessToken e now treply st)).
Proof. intros H. unfold send. now rewrite H. Qed.

Lemma send_account_unset e now treply mreply m st tok :
  returned (getAccessToken e now treply st) = Ok tok ->
  truthy (ZOHO_ACCOUNT_ID e) = false ->
  send e now treply mreply m st =
    Outcome (Throw (Error ACCOUNT_UNSET_ERROR))
      (final (getAccessToken e now treply st))
      (requests (getAccessToken e now treply st)).
Proof. intros H Ha. unfold send. now rewrite H, Ha. Qed.

Lemma send_posted e now treply mreply m st tok :
  returned (getAccessToken e now treply st) = Ok tok ->
  truthy (ZOHO_ACCOUNT_ID e) = true ->
  send e now treply mreply m st =
    Outcome
      match on_reply mreply with
      | Ok r => Ok r
      | Throw err => Throw (on_error err)
      end
      (final (getAccessToken e now treply st))
      (requests (getAccessToken e now treply st) ++ [mail_request e tok m]).
Proof. intros H Ha. unfold send. now rewrite H, Ha. Qed.

Lemma send_rejected e now treply m st tok err :
  returned (getAccessToken e now treply st) = Ok tok ->
  truthy (ZOHO_ACCOUNT_ID e) = true ->
  returned (send e now treply (MailRejected err) m st)
  = Throw (on_error (Axios err)).
Proof. intros H Ha. now rewrite (send_posted _ _ _ _ _ _ tok H Ha). Qed.

Lemma on_error_invalid_token err :
  truthy_value (response_data err) = true ->
  error_code (response_data err) = Some (JStr (js "INVALID_OAUTHTOKEN")) ->
  on_error (Axios err) = Error TOKEN_INVALID_ERROR.
Proof. intros Hz Hc. unfold on_error. now rewrite Hz, Hc. Qed.


Lemma send_Ok_inv e now treply mreply m st r :
  returned (send e now treply mreply m st) = Ok r ->
  (exists tok, returned (getAccessToken e now treply st) = Ok tok)
  /\ truthy (ZOHO_ACCOUNT_ID e) = true
  /\ on_reply mreply = Ok r.
Proof.
  unfold send. destruct (returned (getAccessToken e now treply st)) as [tok|err];
    [|discriminate].
  destruct (truthy (ZOHO_ACCOUNT_ID e)); simpl; [|discriminate].
  destruct (on_reply mreply) as [r'|err]; [|discriminate].
  intros [= <-]. eauto.
Qed.



End WithStringify.



End Mailer.

(** ** netlify/functions/contact.js *)

Module Contact.

Import Auth Mailer.
Local Open Scope Z_scope.

(** *** The in-memory rate limiter *)

Definition RATE_WINDOW_MS : Z := 15 * 60 * 1000.
Definition RATE_MAX : Z := 10.

Record entry : Type := Entry {
  count : Z;
  windowStart : Z
}.

(** [ipLog.get(ip) || { count: 0, windowStart: now }] *)
Definition get_entry (now : Z) (ip : jsstring) (ipLog : gmap (list N) entry)
  : entry :=
  match ipLog !! ip with
  | Some en => en
  | None => Entry 0 now
  end.

(** [isRateLimited(ip)] with the clock reading [now]: the answer and the
    map [ipLog] afterwards. *)
Definition isRateLimited (now : Z) (ip : jsstring) (ipLog : gmap (list N) entry)
  : bool * gmap (list N) entry :=
  let en := get_entry now ip ipLog in
  if RATE_WINDOW_MS <? now - windowStart en
  then (false, <[ip := Entry 1 now]> ipLog)
  else if RATE_MAX <=? count en
  then (true, ipLog)
  else (false, <[ip := Entry (count en + 1) (windowStart en)]> ipLog).

(** Successive calls for one key at the given clock readings. *)
Fixpoint calls (ip : jsstring) (times : list Z) (ipLog : gmap (list N) entry)
  : list bool * gmap (list N) entry :=
  match times with
  | [] => ([], ipLog)
  | now :: times' =>
      let (limited, ipLog') := isRateLimited now ip ipLog in
      let (rest, ipLog'') := calls ip times' ipLog' in
      (limited :: rest, ipLog'')
  end.

(** One step of the limiter, case by case. *)

Lemma isRateLimited_fresh (now : Z) (ip : jsstring) (ipLog : gmap (list N) entry) :
  ipLog !! ip = None ->
  isRateLimited now ip ipLog = (false, <[ip := Entry 1 now]> ipLog).
Proof.
  intros H. unfold isRateLimited, get_entry. rewrite H. simpl.
  rewrite Z.sub_diag. reflexivity.
Qed.

Lemma isRateLimited_expired (now : Z) (ip : jsstring) (ipLog : gmap (list N) entry) (en : entry) :
  ipLog !! ip = Some en -> RATE_WINDOW_MS < now - windowStart en ->
  isRateLimited now ip ipLog = (false, <[ip := Entry 1 now]> ipLog).
Proof.
  intros H Hw. unfold isRateLimited, get_entry. rewrite H.
  apply Z.ltb_lt in Hw. now rewrite Hw.
Qed.

Lemma isRateLimited_full (now : Z) (ip : jsstring) (ipLog : gmap (list N) entry) (en : entry) :
  ipLog !! ip = Some en -> now - windowStart en <= RATE_WINDOW_MS ->
  RATE_MAX <= count en ->
  isRateLimited now ip ipLog = (true, ipLog).
Proof.
  intros H Hw Hc. unfold isRateLimited, get_entry. rewrite H.
  apply Z.ltb_ge in Hw. apply Z.leb_le in Hc. now rewrite Hw, Hc.
Qed.

Lemma isRateLimited_counted (now : Z) (ip : jsstring) (ipLog : gmap (list N) entry) (en : entry) :
  ipLog !! ip = Some en -> now - windowStart en <= RATE_WINDOW_MS ->
  count en < RATE_MAX ->
  isRateLimited now ip ipLog =
    (false, <[ip := Entry (count en + 1) (windowStart en)]> ipLog).
Proof.
  intros H Hw Hc. unfold isRateLimited, get_entry. rewrite H.
  apply Z.ltb_ge in Hw. apply Z.leb_gt in Hc. now rewrite Hw, Hc.
Qed.

(** Calls inside the window count up as long as there is room... *)
Lemma calls_counted (ip : jsstring) (t0 : Z) (times : list Z) :
  forall (c : Z) (ipLog : gmap (list N) entry),
    ipLog !! ip = Some (Entry c t0) ->
    Forall (fun t => t - t0 <= RATE_WINDOW_MS) times ->
    c + Z.of_nat (length times) <= RATE_MAX ->
    fst (calls ip times ipLog) = repeat false (length times)
    /\ snd (calls ip times ipLog) !! ip
       = Some (Entry (c + Z.of_nat (length times)) t0).
Proof.
  induction times as [|t times IH]; intros c ipLog Hget Hwin Hroom.
  - simpl. rewrite Z.add_0_r. now split.
  - inversion Hwin as [|? ? Ht Hrest]; subst.
    cbn [calls]. cbn [length] in Hroom |- *.
    rewrite (isRateLimited_counted t ip ipLog (Entry c t0) Hget Ht)
      by (simpl; lia).
    cbn [count windowStart].
    destruct (IH (c + 1) (<[ip := Entry (c + 1) t0]> ipLog)) as [IH1 IH2];
      [apply lookup_insert_eq|exact Hrest|lia|].
    destruct (calls ip times (<[ip := Entry (c + 1) t0]> ipLog)) as [rest log'].
    simpl in IH1, IH2 |- *. rewrite IH1, IH2. split; [reflexivity|].
    do 2 f_equal. lia.
Qed.

(** ... and are refused, leaving the map alone, once the count is
    reached. *)
Lemma calls_refused (ip : jsstring) (t0 : Z) (times : list Z) :
  forall (c : Z) (ipLog : gmap (list N) entry),
    ipLog !! ip = Some (Entry c t0) ->
    Forall (fun t => t - t0 <= RATE_WINDOW_MS) times ->
    RATE_MAX <= c ->
    calls ip times ipLog = (repeat true (length times), ipLog).
Proof.
  induction times as [|t times IH]; intros c ipLog Hget Hwin Hfull.
  - reflexivity.
  - inversion Hwin as [|? ? Ht Hrest]; subst.
    cbn [calls].
    rewrite (isRateLimited_full t ip ipLog (Entry c t0) Hget Ht Hfull).
    now rewrite (IH c ipLog Hget Hrest Hfull).
Qed.

Lemma calls_app (ip : jsstring) (ts1 ts2 : list Z) (ipLog : gmap (list N) entry) :
  calls ip (ts1 ++ ts2) ipLog =
    (fst (calls ip ts1 ipLog) ++ fst (calls ip ts2 (snd (calls ip ts1 ipLog))),
     snd (calls ip ts2 (snd (calls ip ts1 ipLog)))).
Proof.
  revert ipLog. induction ts1 as [|t ts1 IH]; intros ipLog.
  - simpl. now destruct (calls ip ts2 ipLog).
  - cbn [calls app]. destruct (isRateLimited t ip ipLog) as [b log1].
    rewrite IH. destruct (calls ip ts1 log1) as [r1 log2]. simpl.
    now destruct (calls ip ts2 log2).
Qed.

(** C3: [isRateLimited] is a fixed window that restarts on the first use
    after expiry.  Without an entry, or with one whose window started
    more than 15 minutes ago, the entry becomes [{count: 1, windowStart:
    now}] and the call is not limited; otherwise a count of 10 or more
    limits the call and changes nothing; otherwise the count goes up by
    one and the call is not limited.  Hence ten calls inside the window
    pass, the eleventh is limited, and the next call after the window has
    expired passes with the count back at 1. *)
Theorem isRateLimited_fixed_window (ip : jsstring) (ipLog : gmap (list N) entry) :
  (forall now : Z, ipLog !! ip = None ->
     isRateLimited now ip ipLog = (false, <[ip := Entry 1 now]> ipLog))
  /\ (forall (now : Z) (en : entry), ipLog !! ip = Some en ->
        15 * 60 * 1000 < now - windowStart en ->
        isRateLimited now ip ipLog = (false, <[ip := Entry 1 now]> ipLog))
  /\ (forall (now : Z) (en : entry), ipLog !! ip = Some en ->
        now - windowStart en <= 15 * 60 * 1000 -> 10 <= count en ->
        isRateLimited now ip ipLog = (true, ipLog))
  /\ (forall (now : Z) (en : entry), ipLog !! ip = Some en ->
        now - windowStart en <= 15 * 60 * 1000 -> count en < 10 ->
        isRateLimited now ip ipLog =
          (false, <[ip := Entry (count en + 1) (windowStart en)]> ipLog))
  /\ (forall (t0 : Z) (times : list Z) (t11 late : Z),
        ipLog !! ip = None ->
        length times = 9%nat ->
        Forall (fun t => t - t0 <= 15 * 60 * 1000) (times ++ [t11]) ->
        15 * 60 * 1000 < late - t0 ->
        fst (calls ip (t0 :: times ++ [t11]) ipLog) = repeat false 10 ++ [true]
        /\ snd (calls ip (t0 :: times ++ [t11]) ipLog) !! ip = Some (Entry 10 t0)
        /\ fst (isRateLimited late ip (snd (calls ip (t0 :: times ++ [t11]) ipLog)))
           = false
        /\ snd (isRateLimited late ip (snd (calls ip (t0 :: times ++ [t11]) ipLog)))
             !! ip = Some (Entry 1 late)).
Proof.
  split; [intros; now apply isRateLimited_fresh|].
  split; [intros now en; apply isRateLimited_expired|].
  split; [intros now en; apply isRateLimited_full|].
  split; [intros now en; apply isRateLimited_counted|].
  intros t0 times t11 late Hnone Hlen Hwin Hlate.
  apply Forall_app in Hwin as [Hwin H11].
  cbn [calls]. rewrite (isRateLimited_fresh t0 ip ipLog Hnone).
  rewrite calls_app.
  destruct (calls_counted ip t0 times 1 (<[ip := Entry 1 t0]> ipLog)) as [Hr Hs];
    [apply lookup_insert_eq|exact Hwin|unfold RATE_MAX; lia|].
  rewrite Hlen in Hr, Hs. change (1 + Z.of_nat 9) with 10 in Hs.
  destruct (calls ip times (<[ip := Entry 1 t0]> ipLog)) as [rs log1].
  cbn [fst snd] in Hr, Hs |- *. subst rs.
  rewrite (calls_refused ip t0 [t11] 10 log1 Hs H11) by (unfold RATE_MAX; lia).
  cbn [fst snd length repeat].
  split; [reflexivity|]. split; [exact Hs|].
  rewrite (isRateLimited_expired late ip log1 (Entry 10 t0) Hs) by exact Hlate.
  split; [reflexivity|apply lookup_insert_eq].
Qed.

Lemma isRateLimited_fixed_window_witness :
  let ip := js "203.0.113.7" in
  let times := [1001; 1002; 1003; 1004; 1005; 1006; 1007; 1008; 1009] in
  fst (calls ip (1000 :: times ++ [901000]) ∅) = repeat false 10 ++ [true]
  /\ fst (isRateLimited 901001 ip (snd (calls ip (1000 :: times ++ [901000]) ∅)))
     = false.
Proof.
  intros ip times.
  destruct (proj2 (proj2 (proj2 (proj2 (isRateLimited_fixed_window ip ∅))))
              1000 times 901000 901001) as (H1 & _ & H2 & _).
  - apply lookup_empty.
  - reflexivity.
  - repeat constructor; lia.
  - lia.
  - split; assumption.
Defined.

(** *** The handler *)

(** The parts of the platform's event that the handler reads;
    [x_forwarded_for] is [event.headers['x-forwarded-for']]. *)
Record event : Type := Event {
  httpMethod : jsstring;
  x_forwarded_for : option jsstring;
  body : option jsstring
}.

Record response : Type := Response {
  statusCode : Z;
  headers : list (jsstring * jsstring);
  r_body : jsstring
}.

(** A parsed request body: an object whose six fields, when present, are
    strings ([None] is a missing field), as the data model has it; bodies
    of another shape are not modelled. *)
Record submission : Type := Submission {
  s_firstName : option jsstring;
  s_lastName : option jsstring;
  s_email : option jsstring;
  s_phone : option jsstring;
  s_interest : option jsstring;
  s_message : option jsstring
}.

(** The module state of one warm instance. *)
Record state : Type := State {
  ipLog : gmap (list N) entry;
  tokens : cache
}.

(** What the outside world answers during one invocation: the clock
    reading of the limiter, then clock reading and replies for the first
    and for the second call of [mailer.send]. *)
Record world : Type := World {
  now_limiter : Z;
  now_first : Z;
  token_first : token_reply;
  mail_first : mail_reply;
  now_second : Z;
  token_second : token_reply;
  mail_second : mail_reply
}.

Definition corsHeaders (origin : jsstring) : list (jsstring * jsstring) :=
  [ (js "Access-Control-Allow-Origin", origin);
    (js "Access-Control-Allow-Methods", js "POST, OPTIONS");
    (js "Access-Control-Allow-Headers", js "Content-Type") ].

(** [event.headers['x-forwarded-for']?.split(',')[0]?.trim() || 'unknown'] *)
Definition client_ip (ev : event) : jsstring :=
  or_else
    match x_forwarded_for ev with
    | Some h => Some (trim (split_head 44 h))
    | None => None
    end
    (js "unknown").

Definition TEAM_ADDRESS : jsstring := js "oselu@agrinovalabs.site".

Definition FALLBACK : jsstring :=
  js "Failed to send your message. Please email us directly at oselu@agrinovalabs.site".

(** The em dash of the two subject lines. *)
Definition dash : jsstring := [32; 8212; 32]%N.

Definition field (v : option jsstring) : jsstring :=
  match v with
  | Some s => s
  | None => []
  end.

Definition fullName_of (b : submission) : jsstring :=
  trim (trim (field (s_firstName b)) ++ js " " ++ trim (field (s_lastName b))).

Definition subject_of (b : submission) : jsstring :=
  js "AgriNova Inquiry"
  ++ (if truthy (Some (field (s_interest b)))
      then js ": " ++ field (s_interest b) else [])
  ++ dash ++ js "from " ++ fullName_of b.

Definition reply_subject_of (b : submission) : jsstring :=
  js "We received your message, " ++ trim (field (s_firstName b)) ++ js "!"
  ++ dash ++ js "AgriNova Labs".

Definition thanks_of (b : submission) : jsstring :=
  js "Thank you, " ++ trim (field (s_firstName b))
  ++ js "! Your message has been sent. We'll be in touch within 24 hours.".

Definition error_body (msg : jsstring) : json :=
  JObj [(js "success", JBool false); (js "error", JStr msg)].

(** The three components of what [deliver] and [handler] produce. *)
Definition resp {S : Type} (x : response * S * list request) : response :=
  fst (fst x).
Definition after {S : Type} (x : response * S * list request) : S :=
  snd (fst x).
Definition trace {S : Type} (x : response * S * list request) : list request :=
  snd x.

(** A request without usable [X-Forwarded-For] header. *)
Definition headerless (ev : event) : Prop :=
  x_forwarded_for ev = None \/ x_forwarded_for ev = Some [].

Section WithRuntime.

(** [JSON.stringify] and [JSON.parse] of the runtime ([None]: the parser
    throws), and the four e-mail templates, which only format text. *)
Variable JSON_stringify : json -> jsstring.
Variable JSON_parse : jsstring -> option submission.
Variable teamEmailHtml : jsstring -> jsstring -> jsstring -> jsstring -> jsstring -> jsstring.
Variable teamEmailText : jsstring -> jsstring -> jsstring -> jsstring -> jsstring -> jsstring.
Variable autoReplyHtml : jsstring -> jsstring.
Variable autoReplyText : jsstring -> jsstring.

(** [respond(statusCode, body, origin = '*')] *)
Definition respond (statusCode : Z) (body : json) (origin : option jsstring)
  : response :=
  let origin := match origin with Some o => o | None => js "*" end in
  Response statusCode
    (corsHeaders origin ++ [(js "Content-Type", js "application/json")])
    (JSON_stringify body).

Definition notification_of (e : env) (b : submission) : EmailMessage :=
  Email (js "AgriNova Labs Website") (ZOHO_FROM_EMAIL e) TEAM_ADDRESS
    (subject_of b)
    (teamEmailHtml (fullName_of b) (field (s_email b)) (field (s_phone b))
       (field (s_interest b)) (field (s_message b)))
    (Some (teamEmailText (fullName_of b) (field (s_email b)) (field (s_phone b))
             (field (s_interest b)) (field (s_message b)))).

Definition autoreply_of (e : env) (b : submission) : EmailMessage :=
  Email (js "AgriNova Labs") (ZOHO_FROM_EMAIL e) (trim (field (s_email b)))
    (reply_subject_of b)
    (autoReplyHtml (trim (field (s_firstName b))))
    (Some (autoReplyText (trim (field (s_firstName b))))).

(** The [try] block of the handler: the two sends, one after the other. *)
Definition deliver (e : env) (w : world) (b : submission) (origin : jsstring)
    (st : cache) : response * cache * list request :=
  let first := send JSON_stringify e (now_first w) (token_first w) (mail_first w)
                 (notification_of e b) st in
  match returned first with
  | Throw _ =>
      (respond 500 (error_body FALLBACK) (Some origin), final first, requests first)
  | Ok _ =>
      let second := send JSON_stringify e (now_second w) (token_second w)
                      (mail_second w) (autoreply_of e b) (final first) in
      match returned second with
      | Throw _ =>
          (respond 500 (error_body FALLBACK) (Some origin), final second,
           requests first ++ requests second)
      | Ok _ =>
          (respond 200
             (JObj [(js "success", JBool true); (js "message", JStr (thanks_of b))])
             (Some origin),
           final second, requests first ++ requests second)
      end
  end.

(** [exports.handler]: the response, the module state afterwards and the
    requests issued on the way. *)
Definition handler (e : env) (w : world) (ev : event) (st : state)
  : response * state * list request :=
  if negb (eqb (httpMethod ev) (js "POST"))
  then (respond 405 (error_body (js "Method Not Allowed")) None, st, [])
  else
    let allowedOrigin := or_else (ALLOWED_ORIGIN e) (js "*") in
    if eqb (httpMethod ev) (js "OPTIONS")
    then (Response 204 (corsHeaders allowedOrigin) [], st, [])
    else
      let ip := client_ip ev in
      let (limited, ipLog') := isRateLimited (now_limiter w) ip (ipLog st) in
      if limited
      then (respond 429
              (error_body (js "Too many submissions. Please wait 15 minutes and try again."))
              (Some allowedOrigin),
            State ipLog' (tokens st), [])
      else
        match JSON_parse (or_else (body ev) (js "{}")) with
        | None =>
            (respond 400 (error_body (js "Invalid JSON body.")) (Some allowedOrigin),
             State ipLog' (tokens st), [])
        | Some b =>
            let errors :=
              Validator.validate
                (Validator.Fields (Some (field (s_firstName b)))
                   (Some (field (s_email b))) (Some (field (s_message b)))) in
            if 0 <? Z.of_nat (length errors)
            then (respond 400
                    (JObj [(js "success", JBool false);
                           (js "errors", JArr (map JStr errors))])
                    (Some allowedOrigin),
                  State ipLog' (tokens st), [])
            else
              let '(r, tokens', reqs) := deliver e w b allowedOrigin (tokens st) in
              (r, State ipLog' tokens', reqs)
        end.

(** Successive invocations on one warm instance. *)
Fixpoint serve (e : env) (invocations : list (world * event)) (st : state)
  : list response * state :=
  match invocations with
  | [] => ([], st)
  | (w, ev) :: rest =>
      let '(r, st', _) := handler e w ev st in
      let (rs, st'') := serve e rest st' in
      (r :: rs, st'')
  end.

(** *** Properties of the handler *)

Lemma client_ip_headerless ev : headerless ev -> client_ip ev = js "unknown".
Proof. unfold client_ip. now intros [-> | ->]. Qed.

Lemma deliver_status e w b origin st :
  statusCode (resp (deliver e w b origin st)) = 500
  \/ statusCode (resp (deliver e w b origin st)) = 200.
Proof.
  unfold deliver. destruct (returned (send _ _ _ _ _ _ _)); [|now left].
  destruct (returned (send _ _ _ _ _ _ _)); [now right|now left].
Qed.

(** A POST reaches the limiter: the map afterwards is the limiter's, and
    the answer is 429 exactly when the limiter says so. *)
Lemma handler_limiter e w ev st :
  httpMethod ev = js "POST" ->
  ipLog (after (handler e w ev st))
    = snd (isRateLimited (now_limiter w) (client_ip ev) (ipLog st))
  /\ (statusCode (resp (handler e w ev st)) = 429 <->
      fst (isRateLimited (now_limiter w) (client_ip ev) (ipLog st)) = true).
Proof.
  intros Hm. unfold handler. rewrite Hm.
  change (negb (eqb (js "POST") (js "POST"))) with false.
  change (eqb (js "POST") (js "OPTIONS")) with false. cbv iota.
  destruct (isRateLimited _ _ _) as [[|] log']; [now split|].
  destruct (JSON_parse _) as [b|];
    [|split; [reflexivity|split; discriminate]].
  destruct (0 <? _); [split; [reflexivity|split; discriminate]|].
  pose proof (deliver_status e w b (or_else (ALLOWED_ORIGIN e) (js "*")) (tokens st))
    as Hs.
  destruct (deliver _ _ _ _ _) as [[r t] q]. unfold resp, after in *. simpl in *.
  split; [reflexivity|]. split; [lia|discriminate].
Qed.

(** A POST that passes the limiter, parses and validates is handed to
    [deliver]. *)
Lemma handler_delivers e w ev st b :
  httpMethod ev = js "POST" ->
  fst (isRateLimited (now_limiter w) (client_ip ev) (ipLog st)) = false ->
  JSON_parse (or_else (body ev) (js "{}")) = Some b ->
  Validator.validate
    (Validator.Fields (Some (field (s_firstName b))) (Some (field (s_email b)))
       (Some (field (s_message b)))) = [] ->
  resp (handler e w ev st)
    = resp (deliver e w b (or_else (ALLOWED_ORIGIN e) (js "*")) (tokens st))
  /\ trace (handler e w ev st)
     = trace (deliver e w b (or_else (ALLOWED_ORIGIN e) (js "*")) (tokens st))
  /\ tokens (after (handler e w ev st))
     = after (deliver e w b (or_else (ALLOWED_ORIGIN e) (js "*")) (tokens st)).
Proof.
  intros Hm Hl Hp Hv. unfold handler. rewrite Hm.
  change (negb (eqb (js "POST") (js "POST"))) with false.
  change (eqb (js "POST") (js "OPTIONS")) with false. cbv iota.
  destruct (isRateLimited _ _ _) as [limited log']. simpl in Hl. subst limited.
  rewrite Hp, Hv. simpl.
  now destruct (deliver _ _ _ _ _) as [[r t] q].
Qed.

(** The requests of one [send]: the token exchange, if any, and then at
    most the post of the message at hand. *)
Lemma send_requests_In e now treply mreply m st r :
  In r (requests (send JSON_stringify e now treply mreply m st)) ->
  r = token_request e \/ exists tok, r = mail_request e tok m.
Proof.
  unfold send.
  assert (Hq : In r (requests (getAccessToken e now treply st)) ->
               r = token_request e).
  { destruct (getAccessToken_requests e now treply st) as [-> | ->]; simpl;
      [tauto|]. now intros [<-|[]]. }
  destruct (returned (getAccessToken e now treply st)) as [tok|err]; simpl.
  - destruct (negb (truthy (ZOHO_ACCOUNT_ID e))); simpl.
    + intros H. left. now apply Hq.
    + rewrite in_app_iff. simpl. intros [H|[<-|[]]].
      * left. now apply Hq.
      * right. now exists tok.
  - intros H. left. now apply Hq.
Qed.

Lemma autoreply_not_notification e b tok tok' :
  mail_request e tok (autoreply_of e b) <> mail_request e tok' (notification_of e b).
Proof.
  unfold mail_request, payload_of. simpl. intros H.
  injection H as _ _ Hs _. discriminate.
Qed.

Lemma autoreply_not_in_notification_send e now treply mreply b st tok :
  ~ In (mail_request e tok (autoreply_of e b))
      (requests (send JSON_stringify e now treply mreply (notification_of e b) st)).
Proof.
  intros H. apply send_requests_In in H as [H|[tok' H]].
  - discriminate.
  - now apply autoreply_not_notification in H.
Qed.

(** The limiter under a stream of header-less POSTs that stay inside the
    window opened at [t0]: the answer number [n] is 429 exactly when the
    count has reached 10 by then, and the window start is kept. *)
Lemma serve_inside_window e (t0 : Z) (invocations : list (world * event)) :
  forall (c : Z) (st : state),
    ipLog st !! js "unknown" = Some (Entry c t0) ->
    Forall (fun i => httpMethod (snd i) = js "POST" /\ headerless (snd i))
      invocations ->
    Forall (fun i => now_limiter (fst i) - t0 <= RATE_WINDOW_MS) invocations ->
    (forall (n : nat) (r : response),
        fst (serve e invocations st) !! n = Some r ->
        (statusCode r = 429 <-> RATE_MAX <= c + Z.of_nat n))
    /\ exists c', ipLog (snd (serve e invocations st)) !! js "unknown"
                  = Some (Entry c' t0).
Proof.
  induction invocations as [|[w ev] rest IH]; intros c st Hget Hpost Hwin.
  - split; [intros n r H; discriminate|now exists c].
  - inversion Hpost as [|? ? [Hm Hh] Hpost']; subst.
    inversion Hwin as [|? ? Ht Hwin']; subst. simpl in Hm, Hh, Ht.
    destruct (handler_limiter e w ev st Hm) as [Hlog Hst].
    rewrite (client_ip_headerless ev Hh) in Hlog, Hst.
    cbn [serve].
    destruct (handler e w ev st) as [[r st'] q] eqn:Eh.
    unfold resp, after in Hlog, Hst. simpl in Hlog, Hst.
    destruct (Z_lt_le_dec c RATE_MAX) as [Hc|Hc].
    + rewrite (isRateLimited_counted _ _ _ (Entry c t0) Hget Ht Hc) in Hlog, Hst.
      simpl in Hlog, Hst.
      destruct (IH (c + 1) st') as [IH1 IH2];
        [rewrite Hlog; apply lookup_insert_eq|exact Hpost'|exact Hwin'|].
      destruct (serve e rest st') as [rs st'']. simpl in IH1, IH2 |- *.
      split; [|exact IH2].
      intros [|n] r' Hr'; simpl in Hr'.
      * injection Hr' as <-. rewrite Hst. split; [discriminate|simpl; lia].
      * rewrite (IH1 n r' Hr'). lia.
    + rewrite (isRateLimited_full _ _ _ (Entry c t0) Hget Ht Hc) in Hlog, Hst.
      simpl in Hlog, Hst.
      destruct (IH c st') as [IH1 IH2];
        [now rewrite Hlog|exact Hpost'|exact Hwin'|].
      destruct (serve e rest st') as [rs st'']. simpl in IH1, IH2 |- *.
      split; [|exact IH2].
      intros [|n] r' Hr'; simpl in Hr'.
      * injection Hr' as <-. rewrite Hst. split; [simpl; lia|reflexivity].
      * rewrite (IH1 n r' Hr'). lia.
Qed.

(** *** Claims about the handler *)

(** C1, on the code: the method check comes first, so every request whose
    method is not POST, a preflight OPTIONS request included, is answered
    405 Method Not Allowed with a JSON body and the default origin; the
    204 preflight answer below it is never given. *)
Theorem handler_options_answers_405 e w ev st :
  httpMethod ev <> js "POST" ->
  handler e w ev st
  = (Response 405
       (corsHeaders (js "*") ++ [(js "Content-Type", js "application/json")])
       (JSON_stringify (error_body (js "Method Not Allowed"))),
     st, [])
  /\ statusCode (resp (handler e w ev st)) <> 204.
Proof.
  intros Hm. unfold handler.
  destruct (eqb (httpMethod ev) (js "POST")) eqn:E.
  - apply eqb_eq in E. contradiction.
  - simpl. split; [reflexivity|discriminate].
Qed.

(** C9: the two e-mails are sent one after the other.  When the
    notification send throws, the answer is 500 with the fallback text and
    the trace is that of the notification send alone; when it returns, the
    auto-reply send starts from the state it left and its requests follow.
    So a request carrying the auto-reply occurs in the trace only if the
    notification send returned; in particular not when the provider
    answers the notification with INVALID_OAUTHTOKEN. *)
Theorem handler_sends_sequentially e w ev st b :
  httpMethod ev = js "POST" ->
  fst (isRateLimited (now_limiter w) (client_ip ev) (ipLog st)) = false ->
  JSON_parse (or_else (body ev) (js "{}")) = Some b ->
  Validator.validate
    (Validator.Fields (Some (field (s_firstName b))) (Some (field (s_email b)))
       (Some (field (s_message b)))) = [] ->
  let first := send JSON_stringify e (now_first w) (token_first w) (mail_first w)
                 (notification_of e b) (tokens st) in
  let second := send JSON_stringify e (now_second w) (token_second w)
                  (mail_second w) (autoreply_of e b) (final first) in
  (forall err, returned first = Throw err ->
     resp (handler e w ev st)
       = respond 500 (error_body FALLBACK) (Some (or_else (ALLOWED_ORIGIN e) (js "*")))
     /\ trace (handler e w ev st) = requests first
     /\ tokens (after (handler e w ev st)) = final first)
  /\ (forall r, returned first = Ok r ->
       trace (handler e w ev st) = requests first ++ requests second
       /\ tokens (after (handler e w ev st)) = final second)
  /\ (forall tok, In (mail_request e tok (autoreply_of e b)) (trace (handler e w ev st)) ->
       exists r, returned first = Ok r)
  /\ (forall tok err,
       returned (getAccessToken e (now_first w) (token_first w) (tokens st)) = Ok tok ->
       truthy (ZOHO_ACCOUNT_ID e) = true ->
       mail_first w = MailRejected err ->
       truthy_value (response_data err) = true ->
       error_code (response_data err) = Some (JStr (js "INVALID_OAUTHTOKEN")) ->
       statusCode (resp (handler e w ev st)) = 500
       /\ r_body (resp (handler e w ev st)) = JSON_stringify (error_body FALLBACK)
       /\ forall tok', ~ In (mail_request e tok' (autoreply_of e b))
                         (trace (handler e w ev st))).
Proof.
  intros Hm Hl Hp Hv first second.
  destruct (handler_delivers e w ev st b Hm Hl Hp Hv) as (Hr & Ht & Ha).
  rewrite Hr, Ht, Ha. unfold deliver. fold first. fold second.
  assert (Hthrow : forall err, returned first = Throw err ->
            forall tok, ~ In (mail_request e tok (autoreply_of e b)) (requests first)).
  { intros err _ tok. apply autoreply_not_in_notification_send. }
  split; [|split; [|split]].
  - intros err He. rewrite He. now repeat split.
  - intros r He. rewrite He.
    destruct (returned second); now split.
  - intros tok. destruct (returned first) as [r|err] eqn:He; [now exists r|].
    intros H. now apply (Hthrow err eq_refl tok) in H.
  - intros tok err Htok Hacc Hrej Hz Hcode.
    assert (He : returned first = Throw (Error TOKEN_INVALID_ERROR)).
    { unfold first. rewrite Hrej.
      rewrite (send_rejected JSON_stringify _ _ _ _ _ tok err Htok Hacc).
      now rewrite (on_error_invalid_token JSON_stringify err Hz Hcode). }
    rewrite He. repeat split.
    intros tok'. now apply (Hthrow _ He).
Qed.

(** C10: a POST whose X-Forwarded-For header is absent or empty is counted
    under the key "unknown", so all such requests share one entry: from a
    state without that entry, and as long as they arrive within 15 minutes
    of the first, the first ten are not answered 429 and every later one
    is; the first one after the window has expired is not. *)
Theorem headerless_posts_share_unknown e w0 ev0 (rest : list (world * event)) st :
  ipLog st !! js "unknown" = None ->
  Forall (fun i => httpMethod (snd i) = js "POST" /\ headerless (snd i))
    ((w0, ev0) :: rest) ->
  Forall (fun i => now_limiter (fst i) - now_limiter w0 <= 15 * 60 * 1000) rest ->
  Forall (fun i => client_ip (snd i) = js "unknown") ((w0, ev0) :: rest)
  /\ (forall (n : nat) (r : response),
        fst (serve e ((w0, ev0) :: rest) st) !! n = Some r ->
        (statusCode r = 429 <-> (10 <= n)%nat))
  /\ (forall w ev,
        httpMethod ev = js "POST" -> headerless ev ->
        15 * 60 * 1000 < now_limiter w - now_limiter w0 ->
        statusCode (resp (handler e w ev (snd (serve e ((w0, ev0) :: rest) st))))
        <> 429).
Proof.
  intros Hnone Hpost Hwin.
  split.
  { eapply Forall_impl; [exact Hpost|].
    intros i [_ Hh]. now apply client_ip_headerless. }
  inversion Hpost as [|? ? [Hm Hh] Hpost']; subst. simpl in Hm, Hh.
  destruct (handler_limiter e w0 ev0 st Hm) as [Hlog Hst].
  rewrite (client_ip_headerless ev0 Hh) in Hlog, Hst.
  rewrite (isRateLimited_fresh _ _ _ Hnone) in Hlog, Hst. simpl in Hlog, Hst.
  cbn [serve].
  destruct (handler e w0 ev0 st) as [[r0 st1] q] eqn:Eh.
  unfold resp, after in Hlog, Hst. simpl in Hlog, Hst.
  destruct (serve_inside_window e (now_limiter w0) rest 1 st1) as [H1 [c' H2]];
    [rewrite Hlog; apply lookup_insert_eq|exact Hpost'|exact Hwin|].
  destruct (serve e rest st1) as [rs st2]. simpl in H1, H2 |- *.
  split.
  - intros [|n] r Hr; simpl in Hr.
    + injection Hr as <-. rewrite Hst. split; [discriminate|lia].
    + rewrite (H1 n r Hr). unfold RATE_MAX. lia.
  - intros w ev Hm' Hh' Hlate.
    destruct (handler_limiter e w ev st2 Hm') as [_ Hst'].
    rewrite Hst', (client_ip_headerless ev Hh').
    rewrite (isRateLimited_expired _ _ _ (Entry c' (now_limiter w0)) H2 Hlate).
    discriminate.
Qed.

End WithRuntime.

(** *** A concrete deployment on which the statements above are exercised *)

Definition sample_stringify (j : json) : jsstring :=
  match j with
  | JObj ((_, JBool true) :: _) => js "{success:true}"
  | _ => js "{success:false}"
  end.

Definition sample_submission : submission :=
  Submission (Some (js "Jane")) (Some (js "Doe")) (Some (js "jane@example.com"))
    None None (Some (js "Hello, I am interested in your platform.")).

Definition sample_parse (s : jsstring) : option submission :=
  if eqb s (js "{}") then Some (Submission None None None None None None)
  else Some sample_submission.

Definition sample_template5 (a b c d f : jsstring) : jsstring :=
  a ++ b ++ c ++ d ++ f.

Definition sample_template1 (a : jsstring) : jsstring := a.

Definition sample_env : env :=
  Env None None (Some (js "id")) (Some (js "secret")) (Some (js "refresh"))
    (Some (js "42")) (Some (js "site@example.com")).

Definition sample_token : token_reply :=
  TokenResolved (TokenData (Some (js "tok")) None).

Definition sample_sent : mail_reply :=
  MailResolved 200 (JObj [(js "data", JObj [(js "messageId", JStr (js "17"))])]).

Definition sample_invalid_token : axios_error :=
  AxiosError (js "Request failed with status code 401")
    (Some (401, JObj [(js "data",
                       JObj [(js "errorCode", JStr (js "INVALID_OAUTHTOKEN"))])])).

Definition sample_world (now : Z) (first : mail_reply) : world :=
  World now now sample_token first now sample_token sample_sent.

Definition sample_handler : env -> world -> event -> state
                            -> response * state * list request :=
  handler sample_stringify sample_parse sample_template5 sample_template5
    sample_template1 sample_template1.

Lemma handler_options_answers_405_witness :
  statusCode
    (resp (sample_handler sample_env (sample_world 1000 sample_sent)
             (Event (js "OPTIONS") None None) (State ∅ initial))) <> 204.
Proof.
  apply (handler_options_answers_405 sample_stringify sample_parse
           sample_template5 sample_template5 sample_template1 sample_template1
           sample_env (sample_world 1000 sample_sent)
           (Event (js "OPTIONS") None None) (State ∅ initial)).
  discriminate.
Defined.

Lemma handler_sends_sequentially_witness :
  let w := sample_world 1000 (MailRejected sample_invalid_token) in
  let ev := Event (js "POST") (Some (js "203.0.113.7")) (Some (js "{...}")) in
  statusCode (resp (sample_handler sample_env w ev (State ∅ initial))) = 500
  /\ forall tok, ~ In (mail_request sample_env tok
                         (autoreply_of sample_template1 sample_template1
                            sample_env sample_submission))
                    (trace (sample_handler sample_env w ev (State ∅ initial))).
Proof.
  intros w ev.
  assert (Hm : httpMethod ev = js "POST") by reflexivity.
  assert (Hl : fst (isRateLimited (now_limiter w) (client_ip ev)
                      (ipLog (State ∅ initial))) = false) by reflexivity.
  assert (Hp : sample_parse (or_else (body ev) (js "{}")) = Some sample_submission)
    by reflexivity.
  assert (Hv : Validator.validate
                 (Validator.Fields (Some (field (s_firstName sample_submission)))
                    (Some (field (s_email sample_submission)))
                    (Some (field (s_message sample_submission)))) = [])
    by (now vm_compute).
  destruct (handler_sends_sequentially sample_stringify sample_parse
              sample_template5 sample_template5 sample_template1 sample_template1
              sample_env w ev (State ∅ initial) sample_submission Hm Hl Hp Hv)
    as (_ & _ & _ & H).
  destruct (H (js "tok") sample_invalid_token eq_refl eq_refl eq_refl eq_refl eq_refl)
    as (H1 & _ & H3).
  split; [exact H1|exact H3].
Defined.

Lemma headerless_posts_share_unknown_witness :
  let post := Event (js "POST") None (Some (js "{}")) in
  let empty := Event (js "POST") (Some []) None in
  let at_ (t : Z) := sample_world t sample_sent in
  let rest := [(at_ 2000, empty); (at_ 3000, post); (at_ 4000, empty);
               (at_ 5000, post); (at_ 6000, empty); (at_ 7000, post);
               (at_ 8000, empty); (at_ 9000, post); (at_ 10000, empty);
               (at_ 11000, post); (at_ 901000, empty)] in
  let served := serve sample_stringify sample_parse sample_template5
                  sample_template5 sample_template1 sample_template1 sample_env
                  ((at_ 1000, post) :: rest) (State ∅ initial) in
  (forall (n : nat) (r : response),
      fst served !! n = Some r -> (statusCode r = 429 <-> (10 <= n)%nat))
  /\ statusCode (resp (sample_handler sample_env (at_ 901001) post (snd served)))
     <> 429.
Proof.
  intros post empty at_ rest served.
  assert (Hnone : ipLog (State ∅ initial) !! js "unknown" = None)
    by apply lookup_empty.
  assert (Hpost : Forall (fun i => httpMethod (snd i) = js "POST"
                                   /\ headerless (snd i))
                    ((at_ 1000, post) :: rest)).
  { repeat constructor; solve [now left | now right]. }
  assert (Hwin : Forall (fun i => now_limiter (fst i) - now_limiter (at_ 1000)
                                  <= 15 * 60 * 1000) rest).
  { repeat constructor; simpl; lia. }
  destruct (headerless_posts_share_unknown sample_stringify sample_parse
              sample_template5 sample_template5 sample_template1 sample_template1
              sample_env (at_ 1000) post rest (State ∅ initial) Hnone Hpost Hwin)
    as (_ & H1 & H2).
  split; [exact H1|].
  apply H2; [reflexivity|now left|simpl; lia].
Defined.

End Contact.

(** * Further properties of the code *)

(** ** Trimming *)

Module StringFacts.

(** Neither end of the text is whitespace. *)
Definition tidy (s : jsstring) : Prop :=
  match s with [] => True | c :: _ => is_white_space c = false end
  /\ match rev s with [] => True | c :: _ => is_white_space c = false end.

Definition blank (s : jsstring) : Prop :=
  Forall (fun c => is_white_space c = true) s.

Lemma trimStart_split s : exists a, s = a ++ trimStart s /\ blank a.
Proof.
  induction s as [|c s (a & Ha & Hb)]; simpl.
  - exists []. split; [reflexivity|constructor].
  - destruct (is_white_space c) eqn:E.
    + exists (c :: a). split; [simpl; now f_equal|now constructor].
    + exists []. split; [reflexivity|constructor].
Qed.

Lemma trimStart_fixed s :
  match s with [] => True | c :: _ => is_white_space c = false end ->
  trimStart s = s.
Proof. destruct s as [|c s]; simpl; [reflexivity|]. now intros ->. Qed.

Lemma trimStart_blank s : blank s -> trimStart s = [].
Proof.
  induction 1 as [|c s Hc _ IH]; simpl; [reflexivity|]. now rewrite Hc.
Qed.

(** Text that ends in a visible character keeps that end. *)
Lemma trimStart_snoc s c :
  is_white_space c = false -> exists z, trimStart (s ++ [c]) = z ++ [c].
Proof.
  intros Hc. induction s as [|d s [z Hz]]; simpl.
  - rewrite Hc. now exists [].
  - destruct (is_white_space d).
    + now exists z.
    + now exists (d :: s).
Qed.

Lemma trimEnd_split s : exists b, s = trimEnd s ++ b /\ blank b.
Proof.
  destruct (trimStart_split (rev s)) as (a & Ha & Hb).
  exists (rev a). split.
  - unfold trimEnd. rewrite <- rev_app_distr, <- Ha. symmetry. apply rev_involutive.
  - unfold blank. now apply Forall_rev.
Qed.

Lemma trimEnd_head c s :
  is_white_space c = false -> exists r, trimEnd (c :: s) = c :: r.
Proof.
  intros Hc. unfold trimEnd. simpl.
  destruct (trimStart_snoc (rev s) c Hc) as [z ->].
  rewrite rev_app_distr. simpl. now exists (rev z).
Qed.

Lemma trim_tidy s : tidy (trim s).
Proof.
  unfold tidy, trim. split.
  - pose proof (trimStart_no_space s) as H.
    destruct (trimStart s) as [|c r]; [exact I|].
    destruct (trimEnd_head c r H) as [r' ->]. exact H.
  - unfold trimEnd. rewrite rev_involutive. apply trimStart_no_space.
Qed.

Lemma trim_fixed s : tidy s -> trim s = s.
Proof.
  intros [H1 H2]. unfold trim. rewrite (trimStart_fixed s H1).
  unfold trimEnd. rewrite (trimStart_fixed (rev s) H2). apply rev_involutive.
Qed.

Lemma trim_idempotent s : trim (trim s) = trim s.
Proof. apply trim_fixed, trim_tidy. Qed.

Lemma trim_split s : exists a b, s = a ++ trim s ++ b /\ blank a /\ blank b.
Proof.
  destruct (trimStart_split s) as (a & Ha & Hba).
  destruct (trimEnd_split (trimStart s)) as (b & Hb & Hbb).
  exists a, b. unfold trim. now rewrite <- Hb.
Qed.

Lemma trim_blank s : blank s -> trim s = [].
Proof. intros H. unfold trim. now rewrite (trimStart_blank s H). Qed.

Lemma trim_nil : trim [] = [].
Proof. reflexivity. Qed.

(** Whitespace after tidy text is dropped. *)
Lemma trim_app_blank s b : tidy s -> blank b -> trim (s ++ b) = s.
Proof.
  intros [H1 H2] Hb. unfold trim.
  assert (Hend : trimEnd (s ++ b) = s).
  { unfold trimEnd. rewrite rev_app_distr.
    assert (Hrev : blank (rev b)) by now apply Forall_rev.
    clear Hb. induction Hrev as [|c r Hc _ IH]; simpl.
    - rewrite (trimStart_fixed (rev s) H2). apply rev_involutive.
    - now rewrite Hc. }
  destruct s as [|c s].
  - simpl. unfold trimEnd. rewrite (trimStart_blank b Hb). reflexivity.
  - change ((c :: s) ++ b) with (c :: (s ++ b)).
    rewrite (trimStart_fixed (c :: s ++ b) H1). exact Hend.
Qed.

(** Whatever a visible text contains, its trimmed form contains. *)
Lemma trim_elem s c : In c (trim s) -> In c s.
Proof.
  intros H. destruct (trim_split s) as (a & b & Hs & _).
  rewrite Hs, !in_app_iff. tauto.
Qed.

End StringFacts.

(** ** More about the validator *)

Module ValidatorFacts.

Import StringFacts Validator.

Lemma class_no_at (s : jsstring) :
  Forall (fun c => not_space_at c = true) s ->
  count_occ N.eq_dec s 64%N = 0%nat
  /\ Forall (fun c => is_white_space c = false) s.
Proof.
  induction 1 as [|c s Hc _ [IH1 IH2]]; [now split|].
  unfold not_space_at in Hc. apply negb_true_iff, orb_false_iff in Hc as [Hw Ha].
  apply N.eqb_neq in Ha. split; [|now constructor].
  simpl. destruct (N.eq_dec c 64%N); [contradiction|exact IH1].
Qed.

(** X1: [validate] looks at the trimmed fields only: whitespace around the
    first name, the e-mail address or the message changes nothing. *)
Theorem validate_ignores_surrounding_whitespace (f : fields) :
  validate f
  = validate (Fields (option_map trim (firstName f))
                (option_map trim (email f)) (option_map trim (message f))).
Proof.
  rewrite !validate_rule_errors. unfold rule_errors. simpl.
  destruct (firstName f) as [a|], (email f) as [b|], (message f) as [c|];
    simpl; now rewrite ?trim_idempotent.
Qed.

(** X2: The two message rules never fail together, so [validate] reports at
    most three errors. *)
Theorem validate_at_most_three_errors (f : fields) :
  (length (validate f) <= 3)%nat
  /\ ~ (In ERR_TOO_SHORT (validate f) /\ In ERR_TOO_LONG (validate f)).
Proof.
  assert (Hex : message_too_short (message f) && message_too_long (message f)
                = false).
  { destruct (message f) as [m|]; simpl; [|reflexivity].
    destruct (jslength (trim m) <? 10)%Z eqn:E1; [|reflexivity].
    destruct (5000 <? jslength (trim m))%Z eqn:E2; [|reflexivity].
    apply Z.ltb_lt in E1, E2. lia. }
  split.
  - rewrite validate_rule_errors. unfold rule_errors.
    destruct (firstName_fails _), (email_fails _), (message_too_short _),
      (message_too_long _); simpl; try lia; discriminate.
  - rewrite In_ERR_TOO_SHORT, In_ERR_TOO_LONG. intros [H1 H2].
    rewrite H1, H2 in Hex. discriminate.
Qed.

(** X3: An address that passes the e-mail rule has, once trimmed, exactly one
    '@', no whitespace at all and at least six code units. *)
Theorem accepted_email_shape (f : fields) :
  ~ In ERR_EMAIL (validate f) ->
  exists s, email f = Some s
            /\ count_occ N.eq_dec (trim s) 64%N = 1%nat
            /\ Forall (fun c => is_white_space c = false) (trim s)
            /\ (6 <= length (trim s))%nat.
Proof.
  rewrite In_ERR_EMAIL. unfold email_fails.
  destruct (email f) as [s|]; [|now intros []].
  rewrite negb_true_iff, not_false_iff_true, EMAIL_RE_spec.
  intros (l & d & t & Hs & Hl & Hd & Hl' & Hd' & Ht' & Ht).
  exists s. split; [reflexivity|]. rewrite Hs.
  destruct (class_no_at l Hl') as [Cl Wl], (class_no_at d Hd') as [Cd Wd],
    (class_no_at t Ht') as [Ct Wt].
  split; [|split].
  - rewrite !count_occ_app, Cl, Cd, Ct. reflexivity.
  - repeat (apply Forall_app; split); try assumption; now repeat constructor.
  - rewrite !length_app. simpl.
    destruct l; [congruence|]. destruct d; [congruence|]. simpl. lia.
Qed.

Lemma accepted_email_shape_witness :
  exists s, Some (js " jane@example.com ") = Some s
            /\ count_occ N.eq_dec (trim s) 64%N = 1%nat
            /\ Forall (fun c => is_white_space c = false) (trim s)
            /\ (6 <= length (trim s))%nat.
Proof.
  apply (accepted_email_shape
           (Fields None (Some (js " jane@example.com ")) None)).
  rewrite In_ERR_EMAIL. now vm_compute.
Defined.

End ValidatorFacts.

(** ** More about the token provider *)

Module AuthFacts.

Import Auth.
Local Open Scope Z_scope.

Lemma returned_token_cached e now reply st tok :
  returned (getAccessToken e now reply st) = Ok tok ->
  tok <> [] /\ _cachedToken (final (getAccessToken e now reply st)) = Some tok.
Proof.
  unfold getAccessToken.
  destruct (truthy (_cachedToken st)) eqn:Et; simpl.
  - destruct (truthy_num (_tokenExpiry st) && before_margin now (_tokenExpiry st)).
    + simpl. destruct (_cachedToken st) as [[|c t]|]; try discriminate.
      intros [= <-]. split; [discriminate|reflexivity].
    + unfold exchange. destruct reply as [data|err]; [|discriminate].
      destruct (access_token data) as [[|c t]|]; simpl; try discriminate.
      intros [= <-]. split; [discriminate|reflexivity].
  - unfold exchange. destruct reply as [data|err]; [|discriminate].
    destruct (access_token data) as [[|c t]|]; simpl; try discriminate.
    intros [= <-]. split; [discriminate|reflexivity].
Qed.

(** X4: Whatever [getAccessToken] returns is non-empty and is what the cache
    holds afterwards. *)
Theorem getAccessToken_returns_cached e now reply st tok :
  returned (getAccessToken e now reply st) = Ok tok ->
  tok <> [] /\ _cachedToken (final (getAccessToken e now reply st)) = Some tok.
Proof. apply returned_token_cached. Qed.

Lemma getAccessToken_returns_cached_witness :
  js "tok" <> []
  /\ _cachedToken
       (final (getAccessToken (Env None None None None None None None) 1000
                 (TokenResolved (TokenData (Some (js "tok")) None)) initial))
     = Some (js "tok").
Proof.
  apply (getAccessToken_returns_cached (Env None None None None None None None)
           1000 (TokenResolved (TokenData (Some (js "tok")) None)) initial).
  reflexivity.
Defined.

(** The state left by a successful exchange. *)
Lemma exchanged_state e now data st tok :
  requests (getAccessToken e now (TokenResolved data) st) <> [] ->
  access_token data = Some tok -> tok <> [] ->
  final (getAccessToken e now (TokenResolved data) st)
  = Cache (Some tok) (Some (now + num_or (expires_in data) 3600 * 1000)).
Proof.
  intros Hcall Htok Hne. unfold getAccessToken in *.
  destruct (_ && _ && _); [now elim Hcall|].
  unfold exchange. rewrite Htok. now destruct tok.
Qed.

(** X5: A token obtained by an exchange is served from the cache, without any
    request, by every later call made more than 60 seconds before the
    lifetime the provider announced (one hour if it announced none) is
    over. *)
Theorem getAccessToken_reuses_exchanged_token e now data st tok now' reply' :
  requests (getAccessToken e now (TokenResolved data) st) <> [] ->
  access_token data = Some tok -> tok <> [] ->
  0 <= now' ->
  now' < now + num_or (expires_in data) 3600 * 1000 - 60000 ->
  getAccessToken e now' reply' (final (getAccessToken e now (TokenResolved data) st))
  = Outcome (Ok tok) (final (getAccessToken e now (TokenResolved data) st)) [].
Proof.
  intros Hcall Htok Hne Hnow' Hlt.
  rewrite (exchanged_state e now data st tok Hcall Htok Hne).
  unfold getAccessToken. simpl.
  destruct tok as [|c t]; [congruence|]. simpl.
  replace (now' <? now + num_or (expires_in data) 3600 * 1000 - 60000) with true
    by (symmetry; now apply Z.ltb_lt).
  replace (now + num_or (expires_in data) 3600 * 1000 =? 0) with false
    by (symmetry; apply Z.eqb_neq; lia).
  reflexivity.
Qed.

Lemma getAccessToken_reuses_exchanged_token_witness :
  let e := Env None None None None None None None in
  let first := getAccessToken e 1000 (TokenResolved (TokenData (Some (js "tok")) None))
                 initial in
  getAccessToken e 3000000 (TokenRejected (AxiosError (js "down") None)) (final first)
  = Outcome (Ok (js "tok")) (final first) [].
Proof.
  intros e first.
  apply (getAccessToken_reuses_exchanged_token e 1000
           (TokenData (Some (js "tok")) None) initial (js "tok") 3000000
           (TokenRejected (AxiosError (js "down") None)));
    try reflexivity; try discriminate; simpl; lia.
Defined.

(** X6: A token announced to live 60 seconds or less is never served from the
    cache: unless the clock runs backwards, the next call exchanges
    again. *)
Theorem getAccessToken_short_lived_not_reused e now data st tok secs now' reply' :
  requests (getAccessToken e now (TokenResolved data) st) <> [] ->
  access_token data = Some tok -> tok <> [] ->
  expires_in data = Some secs -> secs <> 0 -> secs <= 60 ->
  now <= now' ->
  requests (getAccessToken e now' reply'
              (final (getAccessToken e now (TokenResolved data) st)))
  = [token_request e].
Proof.
  intros Hcall Htok Hne Hsecs Hnz Hshort Hmono.
  rewrite (exchanged_state e now data st tok Hcall Htok Hne).
  unfold getAccessToken. simpl. rewrite Hsecs. simpl.
  apply Z.eqb_neq in Hnz. rewrite Hnz.
  replace (now' <? now + secs * 1000 - 60000) with false
    by (symmetry; apply Z.ltb_ge; lia).
  rewrite andb_false_r.
  now destruct (exchange now' reply' _) as [[t|] st'].
Qed.

Lemma getAccessToken_short_lived_not_reused_witness :
  let e := Env None None None None None None None in
  let data := TokenData (Some (js "tok")) (Some 60) in
  requests (getAccessToken e 1000 (TokenResolved data)
              (final (getAccessToken e 1000 (TokenResolved data) initial)))
  = [token_request e].
Proof.
  intros e data.
  apply (getAccessToken_short_lived_not_reused e 1000 data initial (js "tok") 60
           1000 (TokenResolved data));
    try reflexivity; try discriminate; lia.
Defined.

(** Two plain facts used further on. *)
Lemma fresh_cache_served e t reply (tok : jsstring) exp :
  tok <> [] -> 0 <= t -> t < exp - 60000 ->
  getAccessToken e t reply (Cache (Some tok) (Some exp))
  = Outcome (Ok tok) (Cache (Some tok) (Some exp)) [].
Proof.
  intros Hne Ht Hlt. unfold getAccessToken. simpl.
  destruct tok as [|c tk]; [congruence|]. simpl.
  replace (t <? exp - 60000) with true by (symmetry; now apply Z.ltb_lt).
  replace (exp =? 0) with false by (symmetry; apply Z.eqb_neq; lia).
  reflexivity.
Qed.

Lemma cold_exchange e now (tok : jsstring) secs :
  tok <> [] ->
  getAccessToken e now (TokenResolved (TokenData (Some tok) secs)) initial
  = Outcome (Ok tok) (Cache (Some tok) (Some (now + num_or secs 3600 * 1000)))
      [token_request e].
Proof. intros Hne. unfold getAccessToken. simpl. now destruct tok. Qed.

End AuthFacts.

(** ** More about the mail sender *)

Module MailerFacts.

Import Auth Mailer.
Local Open Scope Z_scope.

Section WithStringify.

Variable JSON_stringify : json -> jsstring.

(** [send] itself never writes the token cache: it leaves the state that
    [getAccessToken] left. *)
Lemma send_final e now treply mreply m st :
  final (send JSON_stringify e now treply mreply m st)
  = final (getAccessToken e now treply st).
Proof.
  unfold send. destruct (returned (getAccessToken e now treply st)); [|reflexivity].
  now destruct (negb (truthy (ZOHO_ACCOUNT_ID e))).
Qed.

(** X7: [send] posts to the send endpoint at most once, as its last request,
    and only with a configured account and the token that
    [getAccessToken] has just returned, which is the cached one; the post
    carries the message's payload and a 10 second timeout. *)
Theorem send_posts_with_current_token e now treply mreply m st :
  (exists tok,
      returned (getAccessToken e now treply st) = Ok tok
      /\ truthy (ZOHO_ACCOUNT_ID e) = true
      /\ _cachedToken (final (send JSON_stringify e now treply mreply m st))
         = Some tok
      /\ requests (send JSON_stringify e now treply mreply m st)
         = requests (getAccessToken e now treply st)
           ++ [MailPost (js "https://mail.zoho.com/api/accounts/"
                         ++ String_ (ZOHO_ACCOUNT_ID e) ++ js "/messages")
                 (payload_of m) (js "Zoho-oauthtoken " ++ tok) 10000])
  \/ (requests (send JSON_stringify e now treply mreply m st)
      = requests (getAccessToken e now treply st)
      /\ (exists err, returned (send JSON_stringify e now treply mreply m st)
                      = Throw err)
      /\ ((exists err, returned (getAccessToken e now treply st) = Throw err)
          \/ truthy (ZOHO_ACCOUNT_ID e) = false)).
Proof.
  destruct (returned (getAccessToken e now treply st)) as [tok|err] eqn:Htok.
  - destruct (truthy (ZOHO_ACCOUNT_ID e)) eqn:Ha.
    + left. exists tok. split; [reflexivity|]. split; [reflexivity|].
      rewrite send_final.
      split; [now apply AuthFacts.returned_token_cached|].
      now rewrite (send_posted JSON_stringify _ _ _ _ _ _ tok Htok Ha).
    + right. rewrite (send_account_unset JSON_stringify _ _ _ _ _ _ tok Htok Ha).
      simpl. split; [reflexivity|]. split; [eauto|now right].
  - right. rewrite (send_token_failure JSON_stringify _ _ _ _ _ _ err Htok).
    simpl. split; [reflexivity|]. split; eauto.
Qed.

(** X8: A token that the provider rejects stays cached: [send] leaves the
    cache as it found it, so until the recorded expiry approaches every
    further [send] posts with the same token and asks for no new one. *)
Theorem send_keeps_rejected_token e now treply err m tok exp :
  tok <> [] -> 0 <= now -> now < exp - 60000 ->
  truthy (ZOHO_ACCOUNT_ID e) = true ->
  final (send JSON_stringify e now treply (MailRejected err) m
           (Cache (Some tok) (Some exp)))
  = Cache (Some tok) (Some exp)
  /\ forall now' treply' mreply' m',
      0 <= now' -> now' < exp - 60000 ->
      requests (send JSON_stringify e now' treply' mreply' m'
                  (Cache (Some tok) (Some exp)))
      = [mail_request e tok m'].
Proof.
  intros Hne Hnow Hlt Ha.
  assert (Hget : forall t r, 0 <= t -> t < exp - 60000 ->
             getAccessToken e t r (Cache (Some tok) (Some exp))
             = Outcome (Ok tok) (Cache (Some tok) (Some exp)) []).
  { intros t r Ht Hlt'. unfold getAccessToken. simpl.
    destruct tok as [|c tk]; [congruence|]. simpl.
    replace (t <? exp - 60000) with true by (symmetry; now apply Z.ltb_lt).
    replace (exp =? 0) with false by (symmetry; apply Z.eqb_neq; lia).
    reflexivity. }
  split.
  - now rewrite send_final, Hget.
  - intros now' treply' mreply' m' Hnow' Hlt'.
    rewrite (send_posted JSON_stringify _ _ _ _ _ _ tok); [|now rewrite Hget|exact Ha].
    now rewrite Hget.
Qed.

(** X9: The provider's error code is [data.errorCode] when that is non-empty
    and [status.code] otherwise: a reply that names a code only in
    [status.code] is mapped by it, and a reply with a [data.errorCode]
    outside the three known codes gives the generic error whatever
    [status.code] says. *)
Theorem send_error_code_precedence e now treply m st tok err :
  returned (getAccessToken e now treply st) = Ok tok ->
  truthy (ZOHO_ACCOUNT_ID e) = true ->
  truthy_value (response_data err) = true ->
  (truthy_value (opt_get (opt_get (response_data err) (js "data")) (js "errorCode"))
   = false ->
   (opt_get (opt_get (response_data err) (js "status")) (js "code")
    = Some (JStr (js "INVALID_OAUTHTOKEN")) ->
    returned (send JSON_stringify e now treply (MailRejected err) m st)
    = Throw (Error TOKEN_INVALID_ERROR))
   /\ (opt_get (opt_get (response_data err) (js "status")) (js "code")
       = Some (JStr (js "INVALID_ACCOUNT")) ->
       returned (send JSON_stringify e now treply (MailRejected err) m st)
       = Throw (Error ACCOUNT_WRONG_ERROR))
   /\ (opt_get (opt_get (response_data err) (js "status")) (js "code")
       = Some (JStr (js "QUOTA_EXCEEDED")) ->
       returned (send JSON_stringify e now treply (MailRejected err) m st)
       = Throw (Error QUOTA_ERROR)))
  /\ (forall c,
        opt_get (opt_get (response_data err) (js "data")) (js "errorCode")
        = Some (JStr c) ->
        c <> [] -> c <> js "INVALID_OAUTHTOKEN" -> c <> js "INVALID_ACCOUNT" ->
        c <> js "QUOTA_EXCEEDED" ->
        returned (send JSON_stringify e now treply (MailRejected err) m st)
        = Throw (Error (API_ERROR
                        ++ stringify_value JSON_stringify (response_data err)))).
Proof.
  intros Htok Ha Hz.
  rewrite (send_rejected JSON_stringify _ _ _ _ _ tok err Htok Ha).
  unfold on_error. rewrite Hz. unfold error_code, or_value.
  split.
  - intros Hd. rewrite Hd. repeat split; intros ->; reflexivity.
  - intros c Hc Hne H1 H2 H3. rewrite Hc.
    destruct c as [|x c]; [congruence|]. cbn [truthy_value is_string].
    rewrite <- eqb_eq in H1, H2, H3.
    apply not_true_is_false in H1, H2, H3. now rewrite H1, H2, H3.
Qed.

(** X10: An error body that is not a JSON object (an HTML page, a bare string,
    a number, an array) carries no error code: if it is truthy the generic
    provider error with the serialized body is thrown, and if it is falsy
    (empty text, null, 0, false) the error of the HTTP client is rethrown
    as it is. *)
Theorem send_error_body_not_object e now treply m st tok msg status body :
  returned (getAccessToken e now treply st) = Ok tok ->
  truthy (ZOHO_ACCOUNT_ID e) = true ->
  (forall kv, body <> JObj kv) ->
  returned (send JSON_stringify e now treply
              (MailRejected (AxiosError msg (Some (status, body)))) m st)
  = if truthy_value (Some body)
    then Throw (Error (API_ERROR ++ JSON_stringify body))
    else Throw (Axios (AxiosError msg (Some (status, body)))).
Proof.
  intros Htok Ha Hobj.
  rewrite (send_rejected JSON_stringify _ _ _ _ _ tok _ Htok Ha).
  unfold on_error. cbn [response_data ax_response].
  destruct (truthy_value (Some body)) eqn:Hz; [|reflexivity].
  assert (Hc : error_code (Some body) = None).
  { unfold error_code, or_value, opt_get.
    destruct body as [|b|z|s|l|kv]; try reflexivity. now elim (Hobj kv). }
  rewrite Hc. reflexivity.
Qed.

End WithStringify.

Definition sample_stringify (j : json) : jsstring :=
  match j with
  | JStr s => s
  | _ => js "{}"
  end.

Definition sample_env : env :=
  Env None None (Some (js "id")) (Some (js "secret")) (Some (js "refresh"))
    (Some (js "42")) (Some (js "site@example.com")).

Definition sample_message : EmailMessage :=
  Email (js "Site") (Some (js "site@example.com")) (js "team@example.com")
    (js "Hello") (js "<p>Hello</p>") (Some (js "Hello")).

Definition sample_rejection (body : json) : axios_error :=
  AxiosError (js "Request failed with status code 401") (Some (401, body)).

Lemma send_keeps_rejected_token_witness :
  let st := Cache (Some (js "tok")) (Some 5000000) in
  let bad := sample_rejection
               (JObj [(js "data",
                       JObj [(js "errorCode", JStr (js "INVALID_OAUTHTOKEN"))])]) in
  final (send sample_stringify sample_env 1000 (TokenRejected bad)
           (MailRejected bad) sample_message st) = st.
Proof.
  intros st bad.
  apply (send_keeps_rejected_token sample_stringify sample_env 1000
           (TokenRejected bad) bad sample_message (js "tok") 5000000);
    try reflexivity; try discriminate; lia.
Defined.

Lemma send_error_code_precedence_witness :
  let st := Cache (Some (js "tok")) (Some 5000000) in
  let err := sample_rejection
               (JObj [(js "status", JObj [(js "code", JStr (js "QUOTA_EXCEEDED"))])]) in
  returned (send sample_stringify sample_env 1000 (TokenRejected err)
              (MailRejected err) sample_message st)
  = Throw (Error QUOTA_ERROR).
Proof.
  intros st err.
  destruct (send_error_code_precedence sample_stringify sample_env 1000
              (TokenRejected err) sample_message st (js "tok") err
              eq_refl eq_refl eq_refl) as [H _].
  destruct (H eq_refl) as (_ & _ & H3). exact (H3 eq_refl).
Defined.

Lemma send_error_body_not_object_witness :
  let st := Cache (Some (js "tok")) (Some 5000000) in
  let page := JStr (js "<html>Bad Gateway</html>") in
  returned (send sample_stringify sample_env 1000
              (TokenRejected (sample_rejection page))
              (MailRejected (AxiosError (js "502") (Some (502, page))))
              sample_message st)
  = Throw (Error (API_ERROR ++ js "<html>Bad Gateway</html>")).
Proof.
  intros st page.
  apply (send_error_body_not_object sample_stringify sample_env 1000
           (TokenRejected (sample_rejection page)) sample_message st (js "tok")
           (js "502") 502 page eq_refl eq_refl).
  intros kv. discriminate.
Defined.

End MailerFacts.

(** ** The rate limiter across keys and over time *)

Module LimiterFacts.

Import Contact.
Local Open Scope Z_scope.

(** X11: A call for one key reads and writes the entry of that key only. *)
Theorem isRateLimited_keys_independent (now : Z) (ip : jsstring)
    (ipLog : gmap (list N) entry) :
  (forall k : jsstring, k <> ip ->
     snd (isRateLimited now ip ipLog) !! k = ipLog !! k)
  /\ (forall ipLog' : gmap (list N) entry,
        ipLog' !! ip = ipLog !! ip ->
        fst (isRateLimited now ip ipLog') = fst (isRateLimited now ip ipLog)
        /\ snd (isRateLimited now ip ipLog') !! ip
           = snd (isRateLimited now ip ipLog) !! ip).
Proof.
  split.
  - intros k Hk. unfold isRateLimited.
    destruct (RATE_WINDOW_MS <? _); simpl; [now apply lookup_insert_ne|].
    destruct (RATE_MAX <=? _); simpl; [reflexivity|now apply lookup_insert_ne].
  - intros ipLog' H. unfold isRateLimited, get_entry. rewrite H.
    destruct (ipLog !! ip) as [en|] eqn:E; simpl.
    + destruct (RATE_WINDOW_MS <? _); simpl;
        [now rewrite !lookup_insert_eq|].
      destruct (RATE_MAX <=? _); simpl; [now rewrite H, E|].
      now rewrite !lookup_insert_eq.
    + destruct (RATE_WINDOW_MS <? _); simpl;
        [now rewrite !lookup_insert_eq|].
      now rewrite !lookup_insert_eq.
Qed.

(** X12: Nothing is ever evicted: after a call the map has exactly the keys it
    had, and the key of the call. *)
Theorem isRateLimited_never_evicts (now : Z) (ip : jsstring)
    (ipLog : gmap (list N) entry) :
  dom (snd (isRateLimited now ip ipLog)) = {[ip]} ∪ dom ipLog.
Proof.
  unfold isRateLimited, get_entry.
  destruct (RATE_WINDOW_MS <? _); simpl; [apply dom_insert_L|].
  destruct (ipLog !! ip) as [en|] eqn:E; simpl.
  - destruct (RATE_MAX <=? count en); simpl; [|apply dom_insert_L].
    assert (Hin : ip ∈ dom ipLog) by (apply elem_of_dom; eauto).
    apply set_eq. intros x. rewrite elem_of_union, elem_of_singleton.
    split; [tauto|]. now intros [->|Hx].
  - apply dom_insert_L.
Qed.

(** Every stored count lies between 1 and 10. *)
Definition counts_bounded (ipLog : gmap (list N) entry) : Prop :=
  forall (k : jsstring) (en : entry),
    ipLog !! k = Some en -> 1 <= count en <= RATE_MAX.

Lemma counts_bounded_empty : counts_bounded ∅.
Proof. intros k en H. now rewrite lookup_empty in H. Qed.

(** X13: The bound on the stored counts is kept by every call, whatever the key
    and the clock reading. *)
Theorem isRateLimited_keeps_counts_bounded (now : Z) (ip : jsstring)
    (ipLog : gmap (list N) entry) :
  counts_bounded ipLog -> counts_bounded (snd (isRateLimited now ip ipLog)).
Proof.
  intros Hb. unfold isRateLimited, get_entry.
  assert (Hins : forall en', 1 <= count en' <= RATE_MAX ->
                             counts_bounded (<[ip := en']> ipLog)).
  { intros en' Hen k en Hk. destruct (decide (ip = k)) as [->|Hne].
    - rewrite lookup_insert_eq in Hk. now injection Hk as <-.
    - rewrite lookup_insert_ne in Hk by exact Hne. now apply (Hb k). }
  destruct (RATE_WINDOW_MS <? _); simpl.
  - apply Hins. simpl. unfold RATE_MAX. lia.
  - destruct (ipLog !! ip) as [en|] eqn:E; simpl.
    + destruct (RATE_MAX <=? count en) eqn:Ec; simpl; [exact Hb|].
      apply Hins. simpl. apply Z.leb_gt in Ec. specialize (Hb ip en E). lia.
    + apply Hins. simpl. unfold RATE_MAX. lia.
Qed.

Lemma isRateLimited_keeps_counts_bounded_witness :
  counts_bounded (snd (isRateLimited 1000 (js "203.0.113.7") ∅)).
Proof.
  apply (isRateLimited_keeps_counts_bounded 1000 (js "203.0.113.7") ∅).
  exact counts_bounded_empty.
Defined.

(** X14: Refused calls do not prolong the block: however often a client that
    has used up its ten calls retries inside the window, its first call
    later than 15 minutes after the window started is served, with the
    count back at 1. *)
Theorem refusals_do_not_extend_window (ip : jsstring) (t0 c late : Z)
    (retries : list Z) (ipLog : gmap (list N) entry) :
  ipLog !! ip = Some (Entry c t0) -> RATE_MAX <= c ->
  Forall (fun t => t - t0 <= RATE_WINDOW_MS) retries ->
  RATE_WINDOW_MS < late - t0 ->
  fst (calls ip retries ipLog) = repeat true (length retries)
  /\ isRateLimited late ip (snd (calls ip retries ipLog))
     = (false, <[ip := Entry 1 late]> ipLog).
Proof.
  intros Hget Hfull Hwin Hlate.
  rewrite (calls_refused ip t0 retries c ipLog Hget Hwin Hfull). simpl.
  split; [reflexivity|].
  now apply (isRateLimited_expired late ip ipLog (Entry c t0)).
Qed.

Lemma refusals_do_not_extend_window_witness :
  let ip := js "203.0.113.7" in
  let log : gmap (list N) entry := <[ip := Entry 10 1000]> ∅ in
  isRateLimited 901001 ip (snd (calls ip [2000; 500000; 901000] log))
  = (false, <[ip := Entry 1 901001]> log).
Proof.
  intros ip log.
  apply (refusals_do_not_extend_window ip 1000 10 901001 [2000; 500000; 901000] log).
  - apply lookup_insert_eq.
  - unfold RATE_MAX. lia.
  - repeat constructor; unfold RATE_WINDOW_MS; lia.
  - unfold RATE_WINDOW_MS. lia.
Defined.

End LimiterFacts.

(** ** The e-mail templates of contact.js *)

Module Templates.

(** [s.replace(/c/g, rep)] for a pattern that is the single character [c]
    and a replacement text without [$]. *)
Definition replace_all (c : N) (rep : jsstring) (s : jsstring) : jsstring :=
  flat_map (fun x => if (x =? c)%N then rep else [x]) s.

(** [esc(str)]: the four replacements, one after the other. *)
Definition esc (str : option jsstring) : jsstring :=
  replace_all 34 (js "&quot;")
    (replace_all 62 (js "&gt;")
       (replace_all 60 (js "&lt;")
          (replace_all 38 (js "&amp;") (or_else str [])))).

(** The double quote and the line feed of the template texts. *)
Definition q : jsstring := [34%N].
Definition nl : jsstring := [10%N].

Definition teamEmailHtml (fullName email phone interest message : jsstring) : jsstring :=
  concat [
    js "<!DOCTYPE html>"; nl;
    js "<html lang="; q; js "en"; q; js ">"; nl;
    js "<head><meta charset="; q; js "UTF-8"; q; js "/>"; nl;
    js "<style>"; nl;
    js "  body{margin:0;padding:0;background:#f0faf2;font-family:Arial,sans-serif;}";
      nl;
    js "  .wrap{max-width:600px;margin:32px auto;background:#fff;border-radius:16px;overflow:hidden;border:1px solid rgba(76,175,80,.2);box-shadow:0 4px 24px rgba(45,122,58,.08);}";
      nl;
    js "  .hdr{background:linear-gradient(135deg,#2d7a3a,#4caf58);padding:30px 40px;text-align:center;}";
      nl;
    js "  .hdr h1{color:#fff;font-size:1.35rem;margin:0;letter-spacing:-.01em;}";
      nl;
    js "  .hdr p{color:rgba(255,255,255,.8);margin:6px 0 0;font-size:.83rem;}";
      nl;
    js "  .bdy{padding:34px 40px;}"; nl;
    js "  .bdy h2{color:#2d7a3a;font-size:1rem;margin:0 0 22px;}"; nl;
    js "  .row{margin-bottom:16px;}"; nl;
    js "  .lbl{font-size:.7rem;font-weight:700;text-transform:uppercase;letter-spacing:.09em;color:#5a8a62;margin-bottom:3px;}";
      nl;
    js "  .val{color:#1e3d24;font-size:.92rem;line-height:1.6;margin:0;}";
      nl;
    js "  .msgbox{background:#f0faf2;border-left:4px solid #4caf58;border-radius:0 10px 10px 0;padding:14px 18px;margin-top:6px;}";
      nl;
    js "  .msgbox p{margin:0;color:#1e3d24;font-size:.89rem;line-height:1.75;white-space:pre-wrap;}";
      nl;
    js "  hr{border:none;border-top:1px solid rgba(76,175,80,.15);margin:22px 0;}";
      nl;
    js "  .ftr{background:#d4f0d8;padding:16px 40px;text-align:center;font-size:.73rem;color:#5a8a62;}";
      nl;
    js "  .ftr a{color:#2d7a3a;text-decoration:none;font-weight:600;}"; nl;
    js "  .badge{display:inline-block;background:rgba(76,175,80,.12);border:1px solid rgba(76,175,80,.25);color:#2d7a3a;padding:3px 10px;border-radius:20px;font-size:.72rem;font-weight:600;margin-left:6px;vertical-align:middle;}";
      nl;
    js "</style>"; nl;
    js "</head>"; nl;
    js "<body>"; nl;
    js "<div class="; q; js "wrap"; q; js ">"; nl;
    js "  <div class="; q; js "hdr"; q; js ">"; nl;
    js "    <h1>"; [55356; 57151]%N; js " AgriNova Labs</h1>"; nl;
    js "    <p>New contact form submission from agrinovaai.com</p>"; nl;
    js "  </div>"; nl;
    js "  <div class="; q; js "bdy"; q; js ">"; nl;
    js "    <h2>"; [55357; 56556]%N;
      js " You have a new message <span class="; q; js "badge"; q;
      js ">via Netlify + Zoho</span></h2>"; nl;
    js "    <div class="; q; js "row"; q; js "><div class="; q; js "lbl"; q;
      js ">Full Name</div><p class="; q; js "val"; q; js ">";
      esc (Some fullName); js "</p></div>"; nl;
    js "    <div class="; q; js "row"; q; js "><div class="; q; js "lbl"; q;
      js ">Reply-To Email</div><p class="; q; js "val"; q; js "><a href="; q;
      js "mailto:"; esc (Some email); q; js " style="; q;
      js "color:#4caf58;"; q; js ">"; esc (Some email); js "</a></p></div>";
      nl;
    js "    <div class="; q; js "row"; q; js "><div class="; q; js "lbl"; q;
      js ">Phone Number</div><p class="; q; js "val"; q; js ">";
      esc (Some (or_else (Some phone) (js "Not provided"))); js "</p></div>";
      nl;
    js "    <div class="; q; js "row"; q; js "><div class="; q; js "lbl"; q;
      js ">Area of Interest</div><p class="; q; js "val"; q; js ">";
      esc (Some (or_else (Some interest) (js "Not specified")));
      js "</p></div>"; nl;
    js "    <hr/>"; nl;
    js "    <div class="; q; js "row"; q; js ">"; nl;
    js "      <div class="; q; js "lbl"; q; js ">Message</div>"; nl;
    js "      <div class="; q; js "msgbox"; q; js "><p>"; esc (Some message);
      js "</p></div>"; nl;
    js "    </div>"; nl;
    js "  </div>"; nl;
    js "  <div class="; q; js "ftr"; q; js ">"; nl;
    js "    Sent via <a href="; q; js "https://agrinovaai.com"; q;
      js ">agrinovaai.com</a> &middot; Netlify Functions &middot; Zoho Mail &middot;";
      nl;
    js "    Reply directly to <a href="; q; js "mailto:"; esc (Some email);
      q; js ">"; esc (Some email); js "</a>"; nl;
    js "  </div>"; nl;
    js "</div>"; nl;
    js "</body>"; nl;
    js "</html>"
  ].

Definition teamEmailText (fullName email phone interest message : jsstring) : jsstring :=
  concat [
    js "NEW CONTACT FORM SUBMISSION "; [8212]%N; js " AgriNova Labs"; nl;
    js "============================================="; nl;
    js "Full Name  : "; fullName; nl;
    js "Email      : "; email; nl;
    js "Phone      : "; or_else (Some phone) (js "Not provided"); nl;
    js "Interest   : "; or_else (Some interest) (js "Not specified"); nl;
    nl;
    js "MESSAGE:"; nl;
    js "--------"; nl;
    message; nl;
    nl;
    js "---------------------------------------------"; nl;
    js "Sent via agrinovaai.com | Netlify + Zoho Mail"; nl;
    js "Reply directly to: "; email; nl
  ].

Definition autoReplyHtml (firstName : jsstring) : jsstring :=
  concat [
    js "<!DOCTYPE html>"; nl;
    js "<html lang="; q; js "en"; q; js ">"; nl;
    js "<head><meta charset="; q; js "UTF-8"; q; js "/>"; nl;
    js "<style>"; nl;
    js "  body{margin:0;padding:0;background:#f0faf2;font-family:Arial,sans-serif;}";
      nl;
    js "  .wrap{max-width:600px;margin:32px auto;background:#fff;border-radius:16px;overflow:hidden;border:1px solid rgba(76,175,80,.2);}";
      nl;
    js "  .hdr{background:linear-gradient(135deg,#2d7a3a,#4caf58);padding:30px 40px;text-align:center;}";
      nl;
    js "  .hdr h1{color:#fff;font-size:1.35rem;margin:0;}"; nl;
    js "  .hdr p{color:rgba(255,255,255,.8);margin:7px 0 0;font-size:.83rem;}";
      nl;
    js "  .bdy{padding:34px 40px;color:#1e3d24;line-height:1.8;font-size:.93rem;}";
      nl;
    js "  .bdy h2{color:#2d7a3a;margin:0 0 16px;}"; nl;
    js "  .box{background:#f0faf2;border-radius:12px;padding:16px 20px;margin:20px 0;font-size:.86rem;color:#5a8a62;line-height:1.75;}";
      nl;
    js "  .box a{color:#2d7a3a;font-weight:600;text-decoration:none;}"; nl;
    js "  .cta{display:inline-block;background:#2d7a3a;color:#fff;padding:12px 26px;border-radius:50px;text-decoration:none;font-weight:700;font-size:.88rem;margin-top:6px;}";
      nl;
    js "  .ftr{background:#d4f0d8;padding:16px 40px;text-align:center;font-size:.73rem;color:#5a8a62;}";
      nl;
    js "  .ftr a{color:#2d7a3a;text-decoration:none;font-weight:600;}"; nl;
    js "</style>"; nl;
    js "</head>"; nl;
    js "<body>"; nl;
    js "<div class="; q; js "wrap"; q; js ">"; nl;
    js "  <div class="; q; js "hdr"; q; js ">"; nl;
    js "    <h1>"; [55356; 57151]%N; js " AgriNova Labs</h1>"; nl;
    js "    <p>AI-Powered Precision Farming "; [183]%N;
      js " agrinovaai.com</p>"; nl;
    js "  </div>"; nl;
    js "  <div class="; q; js "bdy"; q; js ">"; nl;
    js "    <h2>Hi "; esc (Some firstName); js ", we got your message! ";
      [55357; 56395]%N; js "</h2>"; nl;
    js "    <p>Thank you for reaching out to <strong>AgriNova Labs</strong>. Our team has received your message and will respond within <strong>24 business hours</strong>.</p>";
      nl;
    js "    <div class="; q; js "box"; q; js ">"; nl;
    js "      "; [55357; 56542]%N;
      js " <strong>Need urgent help?</strong> Call us: <strong>+234 706 234 5678</strong><br/>";
      nl;
    js "      "; [55357; 56551]%N; js " <strong>Email:</strong> <a href="; q;
      js "mailto:oselu@agrinovalabs.site"; q;
      js ">oselu@agrinovalabs.site</a><br/>"; nl;
    js "      "; [55357; 56656]%N; js " <strong>Hours:</strong> Monday ";
      [8211]%N; js " Friday, 8:00 AM "; [8211]%N; js " 6:00 PM WAT"; nl;
    js "    </div>"; nl;
    js "    <p>In the meantime, explore what we're building for African agriculture:</p>";
      nl;
    js "    <a href="; q; js "https://agrinovaai.com"; q; js " class="; q;
      js "cta"; q; js ">Visit AgriNova Labs "; [8594]%N; js "</a>"; nl;
    js "    <p style="; q; js "margin-top:28px;"; q;
      js ">Warm regards,<br/><strong>The AgriNova Labs Team ";
      [55356; 57150]%N; js "</strong></p>"; nl;
    js "  </div>"; nl;
    js "  <div class="; q; js "ftr"; q; js ">"; nl;
    js "    "; [169]%N;
      js " 2025 AgriNova Labs &middot; Awoyaya, Lagos State, Nigeria &middot;";
      nl;
    js "    <a href="; q; js "https://agrinovaai.com"; q;
      js ">agrinovaai.com</a>"; nl;
    js "  </div>"; nl;
    js "</div>"; nl;
    js "</body>"; nl;
    js "</html>"
  ].

Definition autoReplyText (firstName : jsstring) : jsstring :=
  concat [
    js "Hi "; firstName; js ","; nl;
    nl;
    js "Thank you for reaching out to AgriNova Labs!"; nl;
    nl;
    js "We've received your message and will reply within 24 business hours.";
      nl;
    nl;
    js "NEED HELP SOONER?"; nl;
    js "  "; [55357; 56542]%N; js " Call   : +234 706 234 5678"; nl;
    js "  "; [55357; 56551]%N; js " Email  : oselu@agrinovalabs.site"; nl;
    js "  "; [55357; 56656]%N; js " Hours  : Mon"; [8211]%N;
      js "Fri, 8:00 AM "; [8211]%N; js " 6:00 PM WAT"; nl;
    nl;
    js "Explore our platform: https://agrinovaai.com"; nl;
    nl;
    js "Warm regards,"; nl;
    js "The AgriNova Labs Team "; [55356; 57150]%N; nl;
    js "Awoyaya, Lagos State, Nigeria"; nl
  ].

(** What one character becomes. *)
Definition esc_char (c : N) : jsstring :=
  if (c =? 38)%N then js "&amp;"
  else if (c =? 60)%N then js "&lt;"
  else if (c =? 62)%N then js "&gt;"
  else if (c =? 34)%N then js "&quot;"
  else [c].

(** The characters that [esc] rewrites. *)
Definition special (c : N) : bool :=
  ((c =? 38) || (c =? 60) || (c =? 62) || (c =? 34))%N.

(** Occurrences of a code unit in a text. *)
Definition occurrences (c : N) (s : jsstring) : nat :=
  count_occ N.eq_dec s c.

Lemma replace_all_app c rep a b :
  replace_all c rep (a ++ b) = replace_all c rep a ++ replace_all c rep b.
Proof. apply flat_map_app. Qed.

Lemma replace_all_flat_map c rep (f : N -> jsstring) s :
  replace_all c rep (flat_map f s) = flat_map (fun x => replace_all c rep (f x)) s.
Proof.
  induction s as [|x s IH]; simpl; [reflexivity|].
  now rewrite replace_all_app, IH.
Qed.

Lemma esc_char_passes x :
  replace_all 34 (js "&quot;")
    (replace_all 62 (js "&gt;")
       (replace_all 60 (js "&lt;")
          (if (x =? 38)%N then js "&amp;" else [x])))
  = esc_char x.
Proof.
  unfold esc_char.
  destruct (x =? 38)%N eqn:E38; [reflexivity|].
  cbn [replace_all flat_map]. destruct (x =? 60)%N eqn:E60; [reflexivity|].
  cbn [replace_all flat_map app]. destruct (x =? 62)%N eqn:E62; [reflexivity|].
  cbn [replace_all flat_map app]. now destruct (x =? 34)%N.
Qed.

Lemma esc_flat_map s : esc (Some s) = flat_map esc_char s.
Proof.
  unfold esc. replace (or_else (Some s) []) with s by now destruct s.
  unfold replace_all at 4. rewrite !replace_all_flat_map.
  apply flat_map_ext. intros x. apply esc_char_passes.
Qed.

Lemma esc_char_special c : special c = false -> esc_char c = [c].
Proof.
  unfold special, esc_char. intros H.
  apply orb_false_iff in H as [H H34]. apply orb_false_iff in H as [H H62].
  apply orb_false_iff in H as [H38 H60]. now rewrite H38, H60, H62, H34.
Qed.

Lemma esc_char_markup c x :
  In x (esc_char c) -> x <> 60%N /\ x <> 62%N /\ x <> 34%N.
Proof.
  unfold esc_char.
  destruct (c =? 38)%N eqn:E38;
    [|destruct (c =? 60)%N eqn:E60;
      [|destruct (c =? 62)%N eqn:E62; [|destruct (c =? 34)%N eqn:E34]]];
    simpl; intros H;
    repeat (destruct H as [<-|H]; [repeat split; try discriminate|]);
    try contradiction.
  all: apply N.eqb_neq; assumption.
Qed.

Lemma occurrences_app c a b :
  occurrences c (a ++ b) = (occurrences c a + occurrences c b)%nat.
Proof. apply count_occ_app. Qed.

Lemma occurrences_absent c s : ~ In c s -> occurrences c s = 0%nat.
Proof. apply count_occ_not_In. Qed.

Lemma occurrences_concat_ext c (l l' : list jsstring) :
  Forall2 (fun a b => occurrences c a = occurrences c b) l l' ->
  occurrences c (concat l) = occurrences c (concat l').
Proof.
  induction 1 as [|a b l l' Hab _ IH]; simpl; [reflexivity|].
  now rewrite !occurrences_app, Hab, IH.
Qed.

Lemma esc_markup_free v :
  Forall (fun x => x <> 60%N /\ x <> 62%N /\ x <> 34%N) (esc v).
Proof.
  assert (H : forall s, Forall (fun x => x <> 60%N /\ x <> 62%N /\ x <> 34%N)
                          (flat_map esc_char s)).
  { induction s as [|c s IH]; simpl; [constructor|].
    apply Forall_app. split; [|exact IH].
    apply List.Forall_forall. intros x Hx. now apply (esc_char_markup c). }
  destruct v as [s|].
  - rewrite esc_flat_map. apply H.
  - apply (H []).
Qed.

Lemma occurrences_esc c v v' :
  In c [60%N; 62%N; 34%N] ->
  occurrences c (esc v) = occurrences c (esc v').
Proof.
  intros Hc.
  assert (H : forall u, occurrences c (esc u) = 0%nat).
  { intros u. apply occurrences_absent. intros Hin.
    pose proof (esc_markup_free u) as Hf.
    rewrite List.Forall_forall in Hf. destruct (Hf c Hin) as (H1 & H2 & H3).
    simpl in Hc. intuition congruence. }
  now rewrite !H.
Qed.

Lemma esc_char_length c :
  (1 <= length (esc_char c))%nat
  /\ (length (esc_char c) = 1%nat -> special c = false).
Proof.
  unfold esc_char, special.
  destruct (c =? 38)%N; [simpl; split; [lia|discriminate]|].
  destruct (c =? 60)%N; [simpl; split; [lia|discriminate]|].
  destruct (c =? 62)%N; [simpl; split; [lia|discriminate]|].
  destruct (c =? 34)%N; [simpl; split; [lia|discriminate]|].
  simpl. split; [lia|reflexivity].
Qed.

Lemma esc_char_cases c :
  (c = 38%N /\ esc_char c = [38; 97; 109; 112; 59]%N)
  \/ (c = 60%N /\ esc_char c = [38; 108; 116; 59]%N)
  \/ (c = 62%N /\ esc_char c = [38; 103; 116; 59]%N)
  \/ (c = 34%N /\ esc_char c = [38; 113; 117; 111; 116; 59]%N)
  \/ (c <> 38%N /\ esc_char c = [c]).
Proof.
  unfold esc_char.
  destruct (N.eqb_spec c 38) as [->|H38]; [now left|].
  destruct (N.eqb_spec c 60) as [->|H60]; [right; now left|].
  destruct (N.eqb_spec c 62) as [->|H62]; [do 2 right; now left|].
  destruct (N.eqb_spec c 34) as [->|H34]; [do 3 right; now left|].
  do 4 right. now split.
Qed.

Lemma esc_length s : (length s <= length (flat_map esc_char s))%nat.
Proof.
  induction s as [|c s IH]; simpl; [lia|].
  rewrite length_app. pose proof (proj1 (esc_char_length c)). lia.
Qed.

(** *** Claims about [esc] and the templates *)

(** X15: The four successive replacements of [esc] act as a single pass that
    rewrites each character on its own: an ampersand written by a later
    replacement is never escaped again, and escaping distributes over
    concatenation.  A missing or empty value gives the empty text. *)
Theorem esc_is_one_pass :
  (forall s, esc (Some s) = flat_map esc_char s)
  /\ (forall a b, esc (Some (a ++ b)) = esc (Some a) ++ esc (Some b))
  /\ esc (Some (js "<a&b>")) = js "&lt;a&amp;b&gt;"
  /\ esc None = [] /\ esc (Some []) = [].
Proof.
  split; [exact esc_flat_map|].
  split; [|repeat split].
  intros a b. rewrite !esc_flat_map. apply flat_map_app.
Qed.

(** X16: Escaped text contains no '<', no '>' and no double quote. *)
Theorem esc_output_has_no_markup (v : option jsstring) :
  Forall (fun x => x <> 60%N /\ x <> 62%N /\ x <> 34%N) (esc v).
Proof. apply esc_markup_free. Qed.

(** X17: [esc] loses nothing: different texts have different escaped forms. *)
Theorem esc_injective (a b : jsstring) :
  esc (Some a) = esc (Some b) -> a = b.
Proof.
  rewrite !esc_flat_map. revert b.
  assert (Hne : forall c, esc_char c <> []).
  { intros c H. pose proof (proj1 (esc_char_length c)) as Hl.
    rewrite H in Hl. simpl in Hl. lia. }
  induction a as [|x a IH]; intros [|y b]; simpl.
  - reflexivity.
  - intros H. symmetry in H. apply app_eq_nil in H as [H _]. now apply Hne in H.
  - intros H. apply app_eq_nil in H as [H _]. now apply Hne in H.
  - intros H.
    assert (Hhead : x = y /\ flat_map esc_char a = flat_map esc_char b).
    { destruct (esc_char_cases x) as [[-> Ex]|[[-> Ex]|[[-> Ex]|[[-> Ex]|[Hx Ex]]]]],
        (esc_char_cases y) as [[-> Ey]|[[-> Ey]|[[-> Ey]|[[-> Ey]|[Hy Ey]]]]];
        rewrite ?Ex, ?Ey in H; simpl in H;
        try discriminate;
        injection H; intros; subst;
        first [congruence | split; [reflexivity|assumption]]. }
    destruct Hhead as [-> Ht]. f_equal. now apply IH.
Qed.

Lemma esc_injective_witness : js "a<b" = js "a<b".
Proof. apply (esc_injective (js "a<b") (js "a<b")). reflexivity. Defined.

(** X18: [esc] returns its argument unchanged exactly when the text contains
    none of '&', '<', '>' and the double quote. *)
Theorem esc_changes_only_special_text (s : jsstring) :
  esc (Some s) = s <-> Forall (fun c => special c = false) s.
Proof.
  rewrite esc_flat_map. split.
  - intros H. apply (f_equal (@length N)) in H.
    induction s as [|c s IH]; [constructor|].
    simpl in H. rewrite length_app in H.
    pose proof (esc_char_length c) as [Hc1 Hc2].
    pose proof (esc_length s) as Hs.
    constructor; [apply Hc2; lia|apply IH; lia].
  - induction 1 as [|c s Hc _ IH]; simpl; [reflexivity|].
    now rewrite (esc_char_special c Hc), IH.
Qed.

Ltac same_markup :=
  repeat first
    [ apply List.Forall2_nil
    | apply List.Forall2_cons;
      [ first [ apply occurrences_esc; assumption | reflexivity ] | ] ].

(** X19: The markup of the two HTML e-mails is fixed: the numbers of '<', of
    '>' and of double quotes in them do not depend on the submitted
    values. *)
Theorem html_templates_markup_fixed :
  Forall
    (fun c =>
       (forall fullName email phone interest message
               fullName' email' phone' interest' message',
           occurrences c (teamEmailHtml fullName email phone interest message)
           = occurrences c (teamEmailHtml fullName' email' phone' interest' message'))
       /\ (forall firstName firstName',
              occurrences c (autoReplyHtml firstName)
              = occurrences c (autoReplyHtml firstName')))
    [60%N; 62%N; 34%N].
Proof.
  apply List.Forall_forall. intros c Hc. split.
  - intros. unfold teamEmailHtml. apply occurrences_concat_ext. same_markup.
  - intros. unfold autoReplyHtml. apply occurrences_concat_ext. same_markup.
Qed.

(** X20: No template ever produces the empty text, so [send] always adds the
    plain-text alternative to the payload of both e-mails. *)
Theorem emails_carry_text_alternative (e : env) (b : Contact.submission) :
  p_altText
    (Mailer.payload_of (Contact.notification_of teamEmailHtml teamEmailText e b))
  = Some (teamEmailText (Contact.fullName_of b) (Contact.field (Contact.s_email b))
            (Contact.field (Contact.s_phone b)) (Contact.field (Contact.s_interest b))
            (Contact.field (Contact.s_message b)))
  /\ p_altText
       (Mailer.payload_of (Contact.autoreply_of autoReplyHtml autoReplyText e b))
     = Some (autoReplyText (trim (Contact.field (Contact.s_firstName b)))).
Proof. split; reflexivity. Qed.

End Templates.

(** ** More about the handler *)

Module HandlerFacts.

Import StringFacts Auth Mailer Contact.
Local Open Scope Z_scope.

(** *** The client key and the full name *)

Lemma split_head_no_sep (sep : N) (s : jsstring) : ~ In sep (split_head sep s).
Proof.
  induction s as [|c s IH]; simpl; [tauto|].
  destruct (N.eqb_spec c sep) as [->|Hne]; simpl; [tauto|].
  intros [H|H]; [congruence|now apply IH].
Qed.

Lemma split_head_first (sep : N) (first rest : jsstring) :
  ~ In sep first -> split_head sep (first ++ sep :: rest) = first.
Proof.
  induction first as [|c s IH]; simpl; intros H.
  - now rewrite N.eqb_refl.
  - destruct (N.eqb_spec c sep) as [->|Hne]; [elim H; now left|].
    f_equal. apply IH. tauto.
Qed.

Lemma split_head_whole (sep : N) (s : jsstring) :
  ~ In sep s -> split_head sep s = s.
Proof.
  induction s as [|c s IH]; simpl; intros H; [reflexivity|].
  destruct (N.eqb_spec c sep) as [->|Hne]; [elim H; now left|].
  f_equal. apply IH. tauto.
Qed.

Lemma or_else_Some (s d : jsstring) : s <> [] -> or_else (Some s) d = s.
Proof. now destruct s. Qed.

(** X21: The key under which a request is counted is never empty, contains no
    comma and has no whitespace around it: it is the first entry of the
    X-Forwarded-For header, trimmed, and the word "unknown" when that
    entry is blank or the header is missing. *)
Theorem client_ip_is_first_entry :
  (forall ev, client_ip ev <> [] /\ ~ In 44%N (client_ip ev) /\ tidy (client_ip ev))
  /\ (forall m b first rest,
        ~ In 44%N first ->
        client_ip (Event m (Some (first ++ 44%N :: rest)) b)
        = (if truthy (Some (trim first)) then trim first else js "unknown")
        /\ client_ip (Event m (Some first) b)
           = (if truthy (Some (trim first)) then trim first else js "unknown"))
  /\ (forall m b, client_ip (Event m None b) = js "unknown").
Proof.
  split; [|split].
  - intros ev. unfold client_ip.
    destruct (x_forwarded_for ev) as [h|];
      [|repeat split; try discriminate; simpl; intuition discriminate].
    destruct (trim (split_head 44 h)) as [|c t] eqn:E.
    + repeat split; try discriminate; simpl; intuition discriminate.
    + cbn [or_else]. rewrite <- E. split; [rewrite E; discriminate|].
      split; [|apply trim_tidy].
      intros H. apply trim_elem in H. now apply split_head_no_sep in H.
  - intros m b first rest Hno. unfold client_ip. simpl.
    rewrite (split_head_first 44 first rest Hno), (split_head_whole 44 first Hno).
    now destruct (trim first).
  - reflexivity.
Qed.

(** X22: The full name has no whitespace around it; without a last name it is
    the trimmed first name, without a first name the trimmed last name. *)
Theorem fullName_of_tidy (b : submission) :
  tidy (fullName_of b)
  /\ (trim (field (s_lastName b)) = [] ->
      fullName_of b = trim (field (s_firstName b)))
  /\ (trim (field (s_firstName b)) = [] ->
      fullName_of b = trim (field (s_lastName b))).
Proof.
  unfold fullName_of. split; [apply trim_tidy|]. split.
  - intros ->. rewrite app_nil_r.
    apply trim_app_blank; [apply trim_tidy|]. now repeat constructor.
  - intros ->. simpl. change (trim (32%N :: ?x)) with (trim x).
    apply trim_idempotent.
Qed.

Section WithRuntime.

Variable JSON_stringify : json -> jsstring.
Variable JSON_parse : jsstring -> option submission.
Variable teamEmailHtml : jsstring -> jsstring -> jsstring -> jsstring -> jsstring -> jsstring.
Variable teamEmailText : jsstring -> jsstring -> jsstring -> jsstring -> jsstring -> jsstring.
Variable autoReplyHtml : jsstring -> jsstring.
Variable autoReplyText : jsstring -> jsstring.

Local Abbreviation handler :=
  (Contact.handler JSON_stringify JSON_parse teamEmailHtml teamEmailText
     autoReplyHtml autoReplyText).
Local Abbreviation serve :=
  (Contact.serve JSON_stringify JSON_parse teamEmailHtml teamEmailText
     autoReplyHtml autoReplyText).
Local Abbreviation deliver :=
  (Contact.deliver JSON_stringify teamEmailHtml teamEmailText
     autoReplyHtml autoReplyText).
Local Abbreviation respond := (Contact.respond JSON_stringify).
Local Abbreviation notification_of := (Contact.notification_of teamEmailHtml teamEmailText).
Local Abbreviation autoreply_of := (Contact.autoreply_of autoReplyHtml autoReplyText).
Local Abbreviation send := (Mailer.send JSON_stringify).

(** The submitted fields as the handler passes them to the validator. *)
Definition fields_of (b : submission) : Validator.fields :=
  Validator.Fields (Some (field (s_firstName b))) (Some (field (s_email b)))
    (Some (field (s_message b))).

(** The stages of the handler, one equation each. *)

Lemma handler_not_post e w ev st :
  httpMethod ev <> js "POST" ->
  handler e w ev st
  = (respond 405 (error_body (js "Method Not Allowed")) None, st, []).
Proof.
  intros Hm. unfold Contact.handler.
  destruct (eqb (httpMethod ev) (js "POST")) eqn:E; [|reflexivity].
  apply eqb_eq in E. contradiction.
Qed.

Lemma handler_post e w ev st :
  httpMethod ev = js "POST" ->
  handler e w ev st
  = let origin := or_else (ALLOWED_ORIGIN e) (js "*") in
    let lim := isRateLimited (now_limiter w) (client_ip ev) (ipLog st) in
    if fst lim
    then (respond 429
            (error_body (js "Too many submissions. Please wait 15 minutes and try again."))
            (Some origin), State (snd lim) (tokens st), [])
    else
      match JSON_parse (or_else (body ev) (js "{}")) with
      | None =>
          (respond 400 (error_body (js "Invalid JSON body.")) (Some origin),
           State (snd lim) (tokens st), [])
      | Some b =>
          if 0 <? Z.of_nat (length (Validator.validate (fields_of b)))
          then (respond 400
                  (JObj [(js "success", JBool false);
                         (js "errors",
                          JArr (map JStr (Validator.validate (fields_of b))))])
                  (Some origin), State (snd lim) (tokens st), [])
          else
            (resp (deliver e w b origin (tokens st)),
             State (snd lim) (after (deliver e w b origin (tokens st))),
             trace (deliver e w b origin (tokens st)))
      end.
Proof.
  intros Hm. unfold Contact.handler. rewrite Hm.
  change (negb (eqb (js "POST") (js "POST"))) with false.
  change (eqb (js "POST") (js "OPTIONS")) with false. cbv iota zeta.
  destruct (isRateLimited _ _ _) as [[|] log']; [reflexivity|].
  cbn [fst snd]. destruct (JSON_parse _) as [b|]; [|reflexivity].
  unfold fields_of. destruct (0 <? _); [reflexivity|].
  now destruct (Contact.deliver _ _ _ _ _ _ _ _ _ _) as [[r t] q].
Qed.

Lemma deliver_cases e w b origin st :
  let first := send e (now_first w) (token_first w) (mail_first w)
                 (notification_of e b) st in
  let second := send e (now_second w) (token_second w) (mail_second w)
                  (autoreply_of e b) (final first) in
  (exists err, returned first = Throw err
     /\ deliver e w b origin st
        = (respond 500 (error_body FALLBACK) (Some origin), final first,
           requests first))
  \/ (exists r err, returned first = Ok r /\ returned second = Throw err
        /\ deliver e w b origin st
           = (respond 500 (error_body FALLBACK) (Some origin), final second,
              requests first ++ requests second))
  \/ (exists r r', returned first = Ok r /\ returned second = Ok r'
        /\ deliver e w b origin st
           = (respond 200
                (JObj [(js "success", JBool true); (js "message", JStr (thanks_of b))])
                (Some origin), final second, requests first ++ requests second)).
Proof.
  intros first second. unfold Contact.deliver. fold first. fold second.
  destruct (returned first) as [r|err]; [|left; eauto].
  destruct (returned second) as [r'|err]; right; [right|left]; eauto 6.
Qed.

Lemma other_key_untouched (now : Z) (ip k : jsstring)
    (log : gmap (list N) entry) :
  k <> ip -> snd (isRateLimited now ip log) !! k = log !! k.
Proof.
  intros Hk. unfold isRateLimited.
  destruct (RATE_WINDOW_MS <? _); simpl; [now apply lookup_insert_ne|].
  destruct (RATE_MAX <=? _); simpl; [reflexivity|now apply lookup_insert_ne].
Qed.

Lemma send_Ok_posted e now treply mreply m st r :
  returned (send e now treply mreply m st) = Ok r ->
  exists tok, requests (send e now treply mreply m st)
              = requests (getAccessToken e now treply st) ++ [mail_request e tok m].
Proof.
  intros H. destruct (send_Ok_inv JSON_stringify _ _ _ _ _ _ _ H)
    as ([tok Htok] & Ha & _).
  exists tok. now rewrite (send_posted JSON_stringify _ _ _ _ _ _ tok Htok Ha).
Qed.

(** *** Claims about the handler as a whole *)

(** X23: Every answer of the handler has status 200, 400, 405, 429 or 500 and
    carries the three CORS headers and a JSON content type; the allowed
    origin is the configured one, or '*' when none is configured and on
    every 405. *)
Theorem handler_status_and_headers e w ev st :
  In (statusCode (resp (handler e w ev st))) [200; 400; 405; 429; 500]
  /\ headers (resp (handler e w ev st))
     = [ (js "Access-Control-Allow-Origin",
          if eqb (httpMethod ev) (js "POST")
          then or_else (ALLOWED_ORIGIN e) (js "*") else js "*");
         (js "Access-Control-Allow-Methods", js "POST, OPTIONS");
         (js "Access-Control-Allow-Headers", js "Content-Type");
         (js "Content-Type", js "application/json") ].
Proof.
  destruct (eqb (httpMethod ev) (js "POST")) eqn:E.
  - apply eqb_eq in E. rewrite (handler_post e w ev st E). cbv zeta.
    destruct (fst (isRateLimited _ _ _)); [simpl; tauto|].
    destruct (JSON_parse _) as [b|]; [|simpl; tauto].
    destruct (0 <? _); [simpl; tauto|].
    destruct (deliver_cases e w b (or_else (ALLOWED_ORIGIN e) (js "*")) (tokens st))
      as [(err & _ & ->)|[(r & err & _ & _ & ->)|(r & r' & _ & _ & ->)]];
      simpl; tauto.
  - rewrite handler_not_post; [simpl; tauto|].
    intros H. rewrite H in E. discriminate.
Qed.

(** X24: The handler contacts the provider, or touches the token cache, only
    for a POST that passed the limiter, parsed and validated; such a
    request is answered 200 or 500. *)
Theorem handler_requests_only_for_valid_posts e w ev st :
  trace (handler e w ev st) <> []
  \/ tokens (after (handler e w ev st)) <> tokens st ->
  httpMethod ev = js "POST"
  /\ fst (isRateLimited (now_limiter w) (client_ip ev) (ipLog st)) = false
  /\ (exists b, JSON_parse (or_else (body ev) (js "{}")) = Some b
                /\ Validator.validate (fields_of b) = [])
  /\ In (statusCode (resp (handler e w ev st))) [200; 500].
Proof.
  destruct (eqb (httpMethod ev) (js "POST")) eqn:E.
  - apply eqb_eq in E. rewrite (handler_post e w ev st E). cbv zeta.
    destruct (fst (isRateLimited _ _ _)); [unfold trace, after; simpl; intros [H|H]; congruence|].
    destruct (JSON_parse _) as [b|]; [|unfold trace, after; simpl; intros [H|H]; congruence].
    destruct (Validator.validate (fields_of b)) as [|x l] eqn:Ev;
      [|unfold trace, after; simpl; intros [H|H]; congruence].
    simpl. intros _. split; [exact E|]. split; [reflexivity|].
    split; [now exists b|].
    destruct (deliver_cases e w b (or_else (ALLOWED_ORIGIN e) (js "*")) (tokens st))
      as [(err & _ & ->)|[(r & err & _ & _ & ->)|(r & r' & _ & _ & ->)]];
      simpl; tauto.
  - rewrite handler_not_post; [unfold trace, after; simpl; intros [H|H]; congruence|].
    intros H. rewrite H in E. discriminate.
Qed.

(** X25: The handler changes no limiter entry but that of the request's own
    key. *)
Theorem handler_touches_only_client_entry e w ev st (k : jsstring) :
  k <> client_ip ev ->
  ipLog (after (handler e w ev st)) !! k = ipLog st !! k.
Proof.
  intros Hk. destruct (eqb (httpMethod ev) (js "POST")) eqn:E.
  - apply eqb_eq in E.
    rewrite (proj1 (handler_limiter JSON_stringify JSON_parse teamEmailHtml
                      teamEmailText autoReplyHtml autoReplyText e w ev st E)).
    now apply other_key_untouched.
  - rewrite handler_not_post; [reflexivity|].
    intros H. rewrite H in E. discriminate.
Qed.

(** POSTs counted under one key [k], inside the window opened at [t0]:
    answer number [n] is 429 exactly when the count has reached 10. *)
Lemma serve_window_key e (k : jsstring) (t0 : Z)
    (invocations : list (world * event)) :
  forall (c : Z) (st : state),
    ipLog st !! k = Some (Entry c t0) ->
    Forall (fun i => httpMethod (snd i) = js "POST" /\ client_ip (snd i) = k)
      invocations ->
    Forall (fun i => now_limiter (fst i) - t0 <= RATE_WINDOW_MS) invocations ->
    forall (n : nat) (r : response),
      fst (serve e invocations st) !! n = Some r ->
      (statusCode r = 429 <-> RATE_MAX <= c + Z.of_nat n).
Proof.
  induction invocations as [|[w ev] rest IH]; intros c st Hget Hpost Hwin.
  - intros n r H. discriminate.
  - inversion Hpost as [|? ? [Hm Hk] Hpost']; subst.
    inversion Hwin as [|? ? Ht Hwin']; subst. simpl in Hm, Ht.
    destruct (handler_limiter JSON_stringify JSON_parse teamEmailHtml
                teamEmailText autoReplyHtml autoReplyText e w ev st Hm)
      as [Hlog Hst].
    cbn [Contact.serve].
    destruct (Contact.handler _ _ _ _ _ _ e w ev st) as [[r0 st'] q0] eqn:Eh.
    unfold resp, after in Hlog, Hst. simpl in Hlog, Hst.
    cbn [snd] in Hget.
    destruct (Z_lt_le_dec c RATE_MAX) as [Hc|Hc].
    + rewrite (isRateLimited_counted _ _ _ (Entry c t0) Hget Ht Hc) in Hlog, Hst.
      simpl in Hlog, Hst.
      assert (IH' := IH (c + 1) st').
      destruct (Contact.serve _ _ _ _ _ _ e rest st') as [rs st''].
      intros [|n] r Hr; simpl in Hr.
      * injection Hr as <-. rewrite Hst. split; [discriminate|simpl; lia].
      * rewrite (IH' ltac:(rewrite Hlog; apply lookup_insert_eq) Hpost' Hwin' n r Hr).
        lia.
    + rewrite (isRateLimited_full _ _ _ (Entry c t0) Hget Ht Hc) in Hlog, Hst.
      simpl in Hlog, Hst.
      assert (IH' := IH c st').
      destruct (Contact.serve _ _ _ _ _ _ e rest st') as [rs st''].
      intros [|n] r Hr; simpl in Hr.
      * injection Hr as <-. rewrite Hst. split; [simpl; lia|reflexivity].
      * rewrite (IH' ltac:(now rewrite Hlog) Hpost' Hwin' n r Hr). lia.
Qed.

(** X26: For any client key: of the POSTs counted under it, starting without
    an entry and arriving within 15 minutes of the first, the first ten
    are not answered 429 and all later ones are, whatever their bodies
    are (malformed and invalid submissions use up the allowance too). *)
Theorem posts_of_one_client_limited e (k : jsstring) w0 ev0
    (rest : list (world * event)) st :
  ipLog st !! k = None ->
  Forall (fun i => httpMethod (snd i) = js "POST" /\ client_ip (snd i) = k)
    ((w0, ev0) :: rest) ->
  Forall (fun i => now_limiter (fst i) - now_limiter w0 <= RATE_WINDOW_MS) rest ->
  forall (n : nat) (r : response),
    fst (serve e ((w0, ev0) :: rest) st) !! n = Some r ->
    (statusCode r = 429 <-> (10 <= n)%nat).
Proof.
  intros Hnone Hpost Hwin.
  inversion Hpost as [|? ? [Hm Hk] Hpost']; subst. simpl in Hm.
  destruct (handler_limiter JSON_stringify JSON_parse teamEmailHtml
              teamEmailText autoReplyHtml autoReplyText e w0 ev0 st Hm)
    as [Hlog Hst].
  cbn [snd] in Hnone.
  rewrite (isRateLimited_fresh _ _ _ Hnone) in Hlog, Hst. simpl in Hlog, Hst.
  cbn [Contact.serve].
  destruct (Contact.handler _ _ _ _ _ _ e w0 ev0 st) as [[r0 st1] q0] eqn:Eh.
  unfold resp, after in Hlog, Hst. simpl in Hlog, Hst.
  pose proof (serve_window_key e (client_ip ev0) (now_limiter w0) rest 1 st1) as H1.
  destruct (Contact.serve _ _ _ _ _ _ e rest st1) as [rs st2].
  intros [|n] r Hr; simpl in Hr.
  - injection Hr as <-. rewrite Hst. split; [discriminate|lia].
  - rewrite (H1 ltac:(rewrite Hlog; apply lookup_insert_eq) Hpost' Hwin n r Hr).
    unfold RATE_MAX. lia.
Qed.

(** X27: A cold start that goes well: with nothing cached, the token endpoint
    handing out a token that outlives the invocation and the provider
    accepting both e-mails, a valid POST is answered 200 with the thanks
    for the trimmed first name, after exactly three requests: one token
    exchange, the notification and the auto-reply, both posted with that
    token. *)
Theorem handler_cold_start_one_exchange e w ev st b tok secs d1 d2 :
  httpMethod ev = js "POST" ->
  fst (isRateLimited (now_limiter w) (client_ip ev) (ipLog st)) = false ->
  JSON_parse (or_else (body ev) (js "{}")) = Some b ->
  Validator.validate (fields_of b) = [] ->
  tokens st = initial ->
  truthy (ZOHO_ACCOUNT_ID e) = true ->
  token_first w = TokenResolved (TokenData (Some tok) secs) -> tok <> [] ->
  mail_first w = MailResolved 200 d1 -> truthy_value (message_id d1) = true ->
  mail_second w = MailResolved 200 d2 -> truthy_value (message_id d2) = true ->
  0 <= now_second w ->
  now_second w < now_first w + num_or secs 3600 * 1000 - 60000 ->
  resp (handler e w ev st)
  = respond 200
      (JObj [(js "success", JBool true); (js "message", JStr (thanks_of b))])
      (Some (or_else (ALLOWED_ORIGIN e) (js "*")))
  /\ trace (handler e w ev st)
     = [token_request e; mail_request e tok (notification_of e b);
        mail_request e tok (autoreply_of e b)]
  /\ tokens (after (handler e w ev st))
     = Cache (Some tok) (Some (now_first w + num_or secs 3600 * 1000)).
Proof.
  intros Hm Hl Hp Hv Hcold Ha Ht1 Hne Hm1 Hid1 Hm2 Hid2 Hnow2 Hlt.
  rewrite (handler_post e w ev st Hm). cbv zeta. rewrite Hl, Hp, Hv.
  change (0 <? Z.of_nat (length (@nil jsstring))) with false. cbv iota.
  unfold resp, trace, after. cbn [fst snd tokens].
  unfold Contact.deliver. rewrite Hcold, Ht1, Hm1, Hm2.
  pose proof (AuthFacts.cold_exchange e (now_first w) tok secs Hne) as Hx.
  assert (Hr1 : returned (getAccessToken e (now_first w)
                            (TokenResolved (TokenData (Some tok) secs)) initial)
                = Ok tok) by now rewrite Hx.
  rewrite (send_posted JSON_stringify e (now_first w) _ _ _ initial tok Hr1 Ha).
  rewrite Hx. cbn [returned final requests on_reply].
  rewrite Z.eqb_refl, Hid1. cbn [andb final requests returned].
  pose proof (AuthFacts.fresh_cache_served e (now_second w) (token_second w) tok
                (now_first w + num_or secs 3600 * 1000) Hne Hnow2 Hlt) as Hy.
  assert (Hr2 : returned (getAccessToken e (now_second w) (token_second w)
                            (Cache (Some tok)
                               (Some (now_first w + num_or secs 3600 * 1000))))
                = Ok tok) by now rewrite Hy.
  rewrite (send_posted JSON_stringify e (now_second w) _ _ _ _ tok Hr2 Ha).
  rewrite Hy. cbn [returned final requests on_reply].
  rewrite Z.eqb_refl, Hid2. cbn [andb final requests returned].
  repeat split.
Qed.

(** X28: A 500 does not mean that nothing was sent: when the notification goes
    out and the auto-reply fails, the answer is the same 500 with the
    fallback text, and the trace holds the post of the notification. *)
Theorem handler_partial_delivery e w ev st b r err :
  httpMethod ev = js "POST" ->
  fst (isRateLimited (now_limiter w) (client_ip ev) (ipLog st)) = false ->
  JSON_parse (or_else (body ev) (js "{}")) = Some b ->
  Validator.validate (fields_of b) = [] ->
  returned (send e (now_first w) (token_first w) (mail_first w)
              (notification_of e b) (tokens st)) = Ok r ->
  returned (send e (now_second w) (token_second w) (mail_second w)
              (autoreply_of e b)
              (final (send e (now_first w) (token_first w) (mail_first w)
                        (notification_of e b) (tokens st)))) = Throw err ->
  resp (handler e w ev st)
  = respond 500 (error_body FALLBACK) (Some (or_else (ALLOWED_ORIGIN e) (js "*")))
  /\ exists tok, In (mail_request e tok (notification_of e b))
                   (trace (handler e w ev st)).
Proof.
  intros Hm Hl Hp Hv H1 H2.
  rewrite (handler_post e w ev st Hm). cbv zeta. rewrite Hl, Hp, Hv.
  change (0 <? Z.of_nat (length (@nil jsstring))) with false. cbv iota.
  unfold resp, trace, after. cbn [fst snd].
  unfold Contact.deliver. rewrite H1, H2. cbn [fst snd].
  split; [reflexivity|].
  destruct (send_Ok_posted _ _ _ _ _ _ _ H1) as [tok Hreq].
  exists tok. rewrite Hreq, !in_app_iff. left. right. now left.
Qed.

(** X29: A POST without body is treated as the empty object: with a parser
    that reads "{}" as the object without fields, it is answered 400 with
    the first-name, e-mail and too-short errors, in this order, and still
    uses up one call of the client's allowance. *)
Theorem handler_empty_body e w ev st :
  httpMethod ev = js "POST" ->
  body ev = None \/ body ev = Some [] ->
  fst (isRateLimited (now_limiter w) (client_ip ev) (ipLog st)) = false ->
  JSON_parse (js "{}") = Some (Submission None None None None None None) ->
  handler e w ev st
  = (respond 400
       (JObj [(js "success", JBool false);
              (js "errors",
               JArr [JStr Validator.ERR_FIRST_NAME; JStr Validator.ERR_EMAIL;
                     JStr Validator.ERR_TOO_SHORT])])
       (Some (or_else (ALLOWED_ORIGIN e) (js "*"))),
     State (snd (isRateLimited (now_limiter w) (client_ip ev) (ipLog st)))
       (tokens st),
     []).
Proof.
  intros Hm Hb Hl Hp.
  rewrite (handler_post e w ev st Hm). cbv zeta. rewrite Hl.
  replace (or_else (body ev) (js "{}")) with (js "{}")
    by (destruct Hb as [-> | ->]; reflexivity).
  rewrite Hp. reflexivity.
Qed.

End WithRuntime.

Lemma handler_requests_only_for_valid_posts_witness :
  let w := sample_world 1000 sample_sent in
  let ev := Event (js "POST") (Some (js "203.0.113.7")) (Some (js "{...}")) in
  httpMethod ev = js "POST"
  /\ fst (isRateLimited (now_limiter w) (client_ip ev) ∅) = false
  /\ (exists b, sample_parse (or_else (body ev) (js "{}")) = Some b
                /\ Validator.validate (fields_of b) = [])
  /\ In (statusCode (resp (sample_handler sample_env w ev (State ∅ initial))))
       [200; 500].
Proof.
  intros w ev.
  apply (handler_requests_only_for_valid_posts sample_stringify sample_parse
           sample_template5 sample_template5 sample_template1 sample_template1
           sample_env w ev (State ∅ initial)).
  left. now vm_compute.
Defined.

Lemma handler_touches_only_client_entry_witness :
  let w := sample_world 1000 sample_sent in
  let ev := Event (js "POST") (Some (js "203.0.113.7")) (Some (js "{}")) in
  let log : gmap (list N) entry := <[js "198.51.100.1" := Entry 3 500]> ∅ in
  ipLog (after (sample_handler sample_env w ev (State log initial)))
    !! js "198.51.100.1" = log !! js "198.51.100.1".
Proof.
  intros w ev log.
  apply (handler_touches_only_client_entry sample_stringify sample_parse
           sample_template5 sample_template5 sample_template1 sample_template1
           sample_env w ev (State log initial) (js "198.51.100.1")).
  now vm_compute.
Defined.

Lemma posts_of_one_client_limited_witness :
  let post := Event (js "POST") (Some (js "203.0.113.7, 10.0.0.1")) (Some (js "{}")) in
  let at_ (t : Z) := sample_world t sample_sent in
  let rest := [(at_ 2000, post); (at_ 3000, post); (at_ 4000, post);
               (at_ 5000, post); (at_ 6000, post); (at_ 7000, post);
               (at_ 8000, post); (at_ 9000, post); (at_ 10000, post);
               (at_ 11000, post)] in
  let answers := fst (Contact.serve sample_stringify sample_parse sample_template5
                        sample_template5 sample_template1 sample_template1
                        sample_env ((at_ 1000, post) :: rest) (State ∅ initial)) in
  exists r, answers !! 10%nat = Some r /\ statusCode r = 429.
Proof.
  intros post at_ rest answers.
  assert (Hr : answers !! 10%nat
               = Some (Contact.respond sample_stringify 429
                         (error_body (js "Too many submissions. Please wait 15 minutes and try again."))
                         (Some (js "*")))) by (now vm_compute).
  eexists. split; [exact Hr|].
  apply (posts_of_one_client_limited sample_stringify sample_parse
           sample_template5 sample_template5 sample_template1 sample_template1
           sample_env (js "203.0.113.7") (at_ 1000) post rest (State ∅ initial)
           ltac:(apply lookup_empty) ltac:(repeat constructor)
           ltac:(repeat constructor; unfold RATE_WINDOW_MS; simpl; lia)
           10%nat _ Hr).
  lia.
Defined.

Lemma handler_cold_start_one_exchange_witness :
  let w := sample_world 1000 sample_sent in
  let ev := Event (js "POST") (Some (js "203.0.113.7")) (Some (js "{...}")) in
  trace (sample_handler sample_env w ev (State ∅ initial))
  = [token_request sample_env;
     mail_request sample_env (js "tok")
       (Contact.notification_of sample_template5 sample_template5 sample_env
          sample_submission);
     mail_request sample_env (js "tok")
       (Contact.autoreply_of sample_template1 sample_template1 sample_env
          sample_submission)].
Proof.
  intros w ev.
  refine (proj1 (proj2 (handler_cold_start_one_exchange sample_stringify sample_parse
           sample_template5 sample_template5 sample_template1 sample_template1
           sample_env w ev (State ∅ initial) sample_submission (js "tok") None
           (JObj [(js "data", JObj [(js "messageId", JStr (js "17"))])])
           (JObj [(js "data", JObj [(js "messageId", JStr (js "17"))])])
           eq_refl eq_refl eq_refl _ eq_refl eq_refl eq_refl _ eq_refl eq_refl
           eq_refl eq_refl _ _)));
    try (now vm_compute); try discriminate; simpl; lia.
Defined.

Lemma handler_partial_delivery_witness :
  let w := World 1000 1000 sample_token sample_sent
             2000 sample_token (MailRejected sample_invalid_token) in
  let ev := Event (js "POST") (Some (js "203.0.113.7")) (Some (js "{...}")) in
  statusCode (resp (sample_handler sample_env w ev (State ∅ initial))) = 500
  /\ exists tok,
      In (mail_request sample_env tok
            (Contact.notification_of sample_template5 sample_template5 sample_env
               sample_submission))
        (trace (sample_handler sample_env w ev (State ∅ initial))).
Proof.
  intros w ev.
  assert (Hv : Validator.validate (fields_of sample_submission) = [])
    by now vm_compute.
  assert (Hl : fst (isRateLimited (now_limiter w) (client_ip ev)
                      (ipLog (State ∅ initial))) = false) by reflexivity.
  destruct (handler_partial_delivery sample_stringify sample_parse
              sample_template5 sample_template5 sample_template1 sample_template1
              sample_env w ev (State ∅ initial) sample_submission
              (Sent true (Some (JStr (js "17")))) (Error TOKEN_INVALID_ERROR)
              eq_refl Hl eq_refl Hv eq_refl eq_refl)
    as [H1 H2].
  split; [exact (f_equal statusCode H1)|exact H2].
Defined.

Lemma handler_empty_body_witness :
  let w := sample_world 1000 sample_sent in
  statusCode
    (resp (sample_handler sample_env w (Event (js "POST") None None)
             (State ∅ initial))) = 400.
Proof.
  intros w.
  unfold sample_handler.
  rewrite (handler_empty_body sample_stringify sample_parse
             sample_template5 sample_template5 sample_template1 sample_template1
             sample_env w (Event (js "POST") None None) (State ∅ initial));
    try reflexivity. now left.
Defined.

End HandlerFacts.
